(** * CloudTrail-to-Slack lambda: a shallow embedding of [src/main.py]

    The development follows the layout of the Python module:

    - Python values as decoded by [json.loads] ([json]), insertion-ordered
      dictionaries ([dict]) and the handful of object-protocol operations
      the handler relies on ([x[k]], [k in x], iteration, [str.startswith]);
    - [flatten_json] (lines 197-213);
    - the effects of the handler (logging, rule evaluation, object fetch,
      notification) as an exception monad over an append-only history,
      in which [except Exception] catches instances of [Exception] and
      lets anything else through;
    - [should_message_be_processed], [handle_event],
      [get_cloudtrail_log_records], [handle_created_object_record],
      [handle_removed_object_record] and [lambda_handler];
    - the properties of the specification, stated over these definitions. *)

From Stdlib Require Import String Ascii List ZArith Lia Bool.
From Stdlib Require Import DecimalString DecimalNat Permutation.
Import ListNotations.

Set Implicit Arguments.

Local Open Scope string_scope.
Local Open Scope list_scope.

(* ================================================================== *)
(** ** Python strings *)

Module PyStr.

(** [name[:-1]]: every character but the last; the empty string is left
    as it is. *)
Fixpoint drop_last (s : string) : string :=
  match s with
  | EmptyString => EmptyString
  | String c EmptyString => EmptyString
  | String c rest => String c (drop_last rest)
  end.

(** [str(i)] for a non-negative index: its decimal numeral. *)
Definition str (i : nat) : string :=
  NilEmpty.string_of_uint (Nat.to_uint i).

(** [s.startswith(p)]. *)
Definition startswith (s p : string) : bool := String.prefix p s.

(** [needle in s] for two strings: [needle] occurs as a substring. *)
Fixpoint contains (needle s : string) : bool :=
  String.prefix needle s
  || match s with
     | EmptyString => false
     | String _ rest => contains needle rest
     end.

(** Occurrence of a character, used to talk about the separator. *)
Fixpoint has_char (c : ascii) (s : string) : bool :=
  match s with
  | EmptyString => false
  | String d rest => Ascii.eqb c d || has_char c rest
  end.

Definition dot : ascii := "."%char.

(** A path segment that does not contain the separator. *)
Definition dot_free (s : string) : Prop := has_char dot s = false.

End PyStr.

(* ================================================================== *)
(** ** Python values and dictionaries *)

(** A Python [dict] keeps its keys unique and iterates in insertion order:
    an association list, updated through [Dict.set]. *)
Definition dict (V : Type) : Type := list (string * V).

Module Dict.
Section Ops.
Variable V : Type.

(** [d[k]] as a lookup ([None] where Python raises [KeyError]). *)
Fixpoint get (k : string) (d : dict V) : option V :=
  match d with
  | [] => None
  | (k', v) :: d' => if String.eqb k k' then Some v else get k d'
  end.

(** [k in d]. *)
Definition mem (k : string) (d : dict V) : bool :=
  match get k d with Some _ => true | None => false end.

(** [d[k] = v]: an existing key keeps its position and takes the new
    value, a new key is appended. *)
Fixpoint set (k : string) (v : V) (d : dict V) : dict V :=
  match d with
  | [] => [(k, v)]
  | (k', v') :: d' =>
      if String.eqb k k' then (k', v) :: d' else (k', v') :: set k v d'
  end.

Definition keys (d : dict V) : list string := map fst d.

(** The invariant of a Python dictionary. *)
Definition unique_keys (d : dict V) : Prop := NoDup (keys d).

End Ops.
End Dict.

(** What [json.loads] produces, which is also all that the handler ever
    passes around: [None], [bool], [int], [str], [list] and [dict] with
    string keys.  (A [float] is one more scalar and takes every branch an
    [int] takes; it is left out.) *)
#[local] Unset Elimination Schemes.
Inductive json : Type :=
| JNull
| JBool (b : bool)
| JInt (n : Z)
| JStr (s : string)
| JList (items : list json)
| JDict (members : list (string * json)).
#[local] Set Elimination Schemes.

(** [type(x) is dict] / [type(x) is list] fail for both: a leaf. *)
Definition is_scalar (x : json) : bool :=
  match x with
  | JList _ | JDict _ => false
  | _ => true
  end.

(** Structural induction through the two containers. *)
Section JsonInduction.
Variable P : json -> Prop.
Hypothesis Hnull : P JNull.
Hypothesis Hbool : forall b, P (JBool b).
Hypothesis Hint : forall n, P (JInt n).
Hypothesis Hstr : forall s, P (JStr s).
Hypothesis Hlist : forall l, Forall P l -> P (JList l).
Hypothesis Hdict : forall d, Forall (fun kv => P (snd kv)) d -> P (JDict d).

Fixpoint json_nested_ind (x : json) : P x :=
  match x with
  | JNull => Hnull
  | JBool b => Hbool b
  | JInt n => Hint n
  | JStr s => Hstr s
  | JList l =>
      Hlist ((fix items (l : list json) : Forall P l :=
                match l with
                | [] => Forall_nil _
                | y :: l' => Forall_cons y (json_nested_ind y) (items l')
                end) l)
  | JDict d =>
      Hdict ((fix members (d : list (string * json))
                : Forall (fun kv => P (snd kv)) d :=
                match d with
                | [] => Forall_nil _
                | kv :: d' =>
                    Forall_cons kv (json_nested_ind (snd kv)) (members d')
                end) d)
  end.
End JsonInduction.

(* ================================================================== *)
(** ** [flatten_json] (main.py, lines 197-213) *)

(** The flattened event: dotted path to leaf. *)
Definition flat_event : Type := dict json.

(** The inner [flatten(x, name)], with the enclosing [out] passed along.
    The two local loops are [for a in x] over a dictionary (in insertion
    order, [x[a]] being the value stored with [a]) and [for a in x] over a
    list with the counter [i]. *)
Fixpoint flatten (x : json) (name : string) (out : flat_event) : flat_event :=
  match x with
  | JDict d =>
      (fix for_members (d : list (string * json)) (out : flat_event) :=
         match d with
         | [] => out
         | (a, xa) :: d' =>
             for_members d' (flatten xa (name ++ a ++ ".") out)
         end) d out
  | JList l =>
      (fix for_items (l : list json) (i : nat) (out : flat_event) :=
         match l with
         | [] => out
         | a :: l' =>
             for_items l' (S i) (flatten a (name ++ PyStr.str i ++ ".") out)
         end) l 0 out
  | _ => Dict.set (PyStr.drop_last name) x out
  end.

Definition flatten_json (y : json) : flat_event := flatten y "" [].

(** The two loops of [flatten], named. *)
Fixpoint flatten_members (d : list (string * json)) (name : string)
    (out : flat_event) : flat_event :=
  match d with
  | [] => out
  | (a, xa) :: d' => flatten_members d' name (flatten xa (name ++ a ++ ".") out)
  end.

Fixpoint flatten_items (l : list json) (i : nat) (name : string)
    (out : flat_event) : flat_event :=
  match l with
  | [] => out
  | a :: l' =>
      flatten_items l' (S i) name (flatten a (name ++ PyStr.str i ++ ".") out)
  end.

(* ------------------------------------------------------------------ *)
(** *** The traversal in the words of the specification

    A leaf position is the sequence of mapping keys and sequence indices
    leading to it; [leaves] lists the positions depth-first with the value
    found there. *)

Inductive segment : Type :=
| Key (k : string)
| Index (i : nat).

Definition path : Type := list segment.

Definition segment_text (s : segment) : string :=
  match s with
  | Key k => k
  | Index i => PyStr.str i
  end.

(** Every segment followed by the separator. *)
Fixpoint path_name (p : path) : string :=
  match p with
  | [] => ""
  | s :: p' => segment_text s ++ "." ++ path_name p'
  end.

(** The path with the trailing separator stripped. *)
Definition path_key (p : path) : string := PyStr.drop_last (path_name p).

Definition under (s : segment) (leaf : path * json) : path * json :=
  (s :: fst leaf, snd leaf).

Fixpoint leaves (x : json) : list (path * json) :=
  match x with
  | JDict d =>
      (fix of_members (d : list (string * json)) : list (path * json) :=
         match d with
         | [] => []
         | (a, xa) :: d' => map (under (Key a)) (leaves xa) ++ of_members d'
         end) d
  | JList l =>
      (fix of_items (l : list json) (i : nat) : list (path * json) :=
         match l with
         | [] => []
         | a :: l' => map (under (Index i)) (leaves a) ++ of_items l' (S i)
         end) l 0
  | _ => [([], x)]
  end.

Fixpoint leaves_members (d : list (string * json)) : list (path * json) :=
  match d with
  | [] => []
  | (a, xa) :: d' => map (under (Key a)) (leaves xa) ++ leaves_members d'
  end.

Fixpoint leaves_items (l : list json) (i : nat) : list (path * json) :=
  match l with
  | [] => []
  | a :: l' => map (under (Index i)) (leaves a) ++ leaves_items l' (S i)
  end.

(** Recording one leaf: [out[name[:-1]] = x] with [name] the prefix
    followed by the leaf's path. *)
Definition record_leaf (name : string) (out : flat_event)
    (leaf : path * json) : flat_event :=
  Dict.set (PyStr.drop_last (name ++ path_name (fst leaf))) (snd leaf) out.

(** Recording at the top level: [out[key] = x]. *)
Definition write_leaf (out : flat_event) (leaf : path * json) : flat_event :=
  Dict.set (path_key (fst leaf)) (snd leaf) out.

(** The names, the keys and the entries a list of leaves stands for. *)
Definition leaf_names (ls : list (path * json)) : list string :=
  map (fun leaf => path_name (fst leaf)) ls.

Definition leaf_keys (ls : list (path * json)) : list string :=
  map (fun leaf => path_key (fst leaf)) ls.

Definition entry (leaf : path * json) : string * json :=
  (path_key (fst leaf), snd leaf).

(** The value found by following a path from the root. *)
Fixpoint value_at (x : json) (p : path) : option json :=
  match p with
  | [] => Some x
  | Key a :: p' =>
      match x with
      | JDict d =>
          match Dict.get a d with
          | Some xa => value_at xa p'
          | None => None
          end
      | _ => None
      end
  | Index i :: p' =>
      match x with
      | JList l =>
          match nth_error l i with
          | Some a => value_at a p'
          | None => None
          end
      | _ => None
      end
  end.

(** Every dictionary inside the value has unique keys (what Python
    guarantees of any value it can hold). *)
Fixpoint well_formed (x : json) : Prop :=
  match x with
  | JDict d =>
      NoDup (map fst d)
      /\ (fix all (d : list (string * json)) : Prop :=
            match d with
            | [] => True
            | (_, xa) :: d' => well_formed xa /\ all d'
            end) d
  | JList l =>
      (fix all (l : list json) : Prop :=
         match l with
         | [] => True
         | a :: l' => well_formed a /\ all l'
         end) l
  | _ => True
  end.

(** No mapping key anywhere in the value contains the separator. *)
Fixpoint keys_dot_free (x : json) : Prop :=
  match x with
  | JDict d =>
      (fix all (d : list (string * json)) : Prop :=
         match d with
         | [] => True
         | (a, xa) :: d' => PyStr.dot_free a /\ keys_dot_free xa /\ all d'
         end) d
  | JList l =>
      (fix all (l : list json) : Prop :=
         match l with
         | [] => True
         | a :: l' => keys_dot_free a /\ all l'
         end) l
  | _ => True
  end.

(** The spec's example [{"a": [{"b": 1}, 2]}]. *)
Definition example_nested : json :=
  JDict [("a", JList [JDict [("b", JInt 1)]; JInt 2])].

(* ================================================================== *)
(** ** The object protocol used by the handler *)

(** The exceptions (all subclasses of [Exception]) that the handler's own
    operations raise, and [Failure] for whatever a collaborator raises:
    the rule evaluator, the object store client, gzip, the JSON decoder,
    the Slack client. *)
Inductive exn : Type :=
| KeyError (key : string)
| TypeError
| AttributeError
| AssertionError
| Failure (what : string).

(** What can be raised without being an instance of [Exception]: an
    [except Exception] clause does not catch these.  [eval] keeps the
    builtins in scope, so a rule text can raise [SystemExit]. *)
Inductive base_exception : Type :=
| SystemExit (code : Z)
| KeyboardInterrupt
| GeneratorExit.

(** An operation returns, raises an [Exception], or raises something that
    is none. *)
Inductive result (A : Type) : Type :=
| Return (a : A)
| Raise (e : exn)
| RaiseBase (b : base_exception).
Arguments Raise {A} e.
Arguments RaiseBase {A} b.

Module Py.

(** [x[k]] with a string subscript: a lookup in a [dict]; a [list] or
    [str] wants an integer subscript, the other types have none. *)
Definition getitem (x : json) (k : string) : result json :=
  match x with
  | JDict d =>
      match Dict.get k d with
      | Some v => Return v
      | None => Raise (KeyError k)
      end
  | _ => Raise TypeError
  end.

Definition is_str (s : string) (x : json) : bool :=
  match x with
  | JStr s' => String.eqb s s'
  | _ => false
  end.

(** [needle in x] with a string [needle]: substring of a [str], element
    of a [list], key of a [dict]; [TypeError] otherwise. *)
Definition contains (needle : string) (x : json) : result bool :=
  match x with
  | JStr s => Return (PyStr.contains needle s)
  | JList l => Return (existsb (is_str needle) l)
  | JDict d => Return (Dict.mem needle d)
  | _ => Raise TypeError
  end.

(** [for a in x]: the elements of a [list], the keys of a [dict], the
    characters of a [str] (one per byte here); [TypeError] otherwise. *)
Definition iterate (x : json) : result (list json) :=
  match x with
  | JList l => Return l
  | JDict d => Return (map JStr (Dict.keys d))
  | JStr s =>
      Return (map (fun c => JStr (String c EmptyString))
                (list_ascii_of_string s))
  | _ => Raise TypeError
  end.

(** [x.startswith(p)]: a method of [str] only. *)
Definition startswith (x : json) (p : string) : result bool :=
  match x with
  | JStr s => Return (PyStr.startswith s p)
  | _ => Raise AttributeError
  end.

(** Sequencing of operations that may raise. *)
Definition and_then {A B} (r : result A) (k : A -> result B) : result B :=
  match r with
  | Return a => k a
  | Raise e => Raise e
  | RaiseBase b => RaiseBase b
  end.

(** [x[k1][k2]...]. *)
Fixpoint getpath (x : json) (ks : list string) : result json :=
  match ks with
  | [] => Return x
  | k :: ks' => and_then (getitem x k) (fun y => getpath y ks')
  end.

(** [v is True]. *)
Definition is_True (v : json) : bool :=
  match v with
  | JBool true => true
  | _ => false
  end.

End Py.

(* ================================================================== *)
(** ** Effects *)

(** The three formatters of [slack_helpers] are kept symbolic: a message is
    the formatter applied to its arguments. *)
Inductive message : Type :=
| event_to_slack_message
    (event : json) (source_file : json) (account_id_from_event : json)
| message_for_rule_evaluation_error_notification
    (error : exn) (object_key : string) (rule : string)
| message_for_slack_error_notification
    (e : exn) (s3_notification_event : json).

(** [logger.exception] logs at level ERROR. *)
Inductive level : Type := DEBUG | INFO | ERROR.

(** What an invocation does to the outside, in the order it does it. *)
Inductive effect : Type :=
| ELog (lvl : level) (what : string)
    (* logger.debug / logger.info / logger.exception *)
| EEval (rule : string)
    (* eval(rule, {}, {"event": flat_event}) *)
| EGetObject (bucket : json) (key : string)
    (* s3.get_object, gunzip, decode, json.loads: lines 111-114 *)
| EPost (m : message) (account_id : json).
    (* post_message(message, account_id) *)

Definition history : Type := list effect.

(** The collaborators.  Each may depend on everything that happened before
    it is called.
    - [py_eval rule flat_event]: the value of the expression, the
      [Exception] it raises, or what it raises that is no [Exception];
      rule expressions are taken to be functions of their text and of
      the one name in scope.
    - [unquote_plus]: [urllib.parse.unquote_plus].
    - [get_object_json h bucket key]: the decoded content of the object,
      or the exception raised by the fetch, the decompression or the
      decoding.
    - [post_message_raises h m account_id]: [None] when [post_message]
      returns, the exception when it raises (the failures of the Slack
      client are taken to be [Exception]s). *)
Record World : Type := {
  py_eval : string -> flat_event -> result json;
  unquote_plus : string -> string;
  get_object_json : history -> json -> string -> result json;
  post_message_raises : history -> message -> json -> option exn
}.

(** [config.Config]: the fields the handler reads. *)
Record Config : Type := {
  rules : list string;
  ignore_rules : list string;
  rule_evaluation_errors_to_slack : bool
}.

(** A computation reads the history so far and yields the effects it adds
    together with its outcome. *)
Definition M (A : Type) : Type := history -> list effect * result A.

Definition ret {A} (a : A) : M A := fun _ => ([], Return a).

Definition raise {A} (e : exn) : M A := fun _ => ([], Raise e).

Definition bind {A B} (m : M A) (k : A -> M B) : M B :=
  fun h =>
    let (t1, r) := m h in
    match r with
    | Return a => let (t2, r') := k a (h ++ t1) in (t1 ++ t2, r')
    | Raise e => (t1, Raise e)
    | RaiseBase b => (t1, RaiseBase b)
    end.

(** [try: m except Exception as e: handler e]: what is raised without
    being an [Exception] passes through. *)
Definition try_except {A} (m : M A) (handler : exn -> M A) : M A :=
  fun h =>
    let (t1, r) := m h in
    match r with
    | Return a => (t1, Return a)
    | Raise e => let (t2, r') := handler e (h ++ t1) in (t1 ++ t2, r')
    | RaiseBase b => (t1, RaiseBase b)
    end.

Definition lift {A} (r : result A) : M A := fun _ => ([], r).

Definition emit (e : effect) : M unit := fun _ => ([e], Return tt).

Notation "'let?' x := r 'in' k" := (Py.and_then r (fun x => k))
  (at level 10, x name, r at level 100, k at level 200).

Declare Scope py_scope.
Delimit Scope py_scope with py.
Notation "x <- m ;; k" := (bind m (fun x => k))
  (at level 61, m at next level, right associativity) : py_scope.
Notation "m ;; k" := (bind m (fun _ => k))
  (at level 61, right associativity) : py_scope.
Local Open Scope py_scope.

(** [for a in l: body a]. *)
Fixpoint for_each {A} (l : list A) (body : A -> M unit) : M unit :=
  match l with
  | [] => ret tt
  | a :: l' => body a ;; for_each l' body
  end.

Definition when (b : bool) (m : M unit) : M unit :=
  if b then m else ret tt.

(** Projections of a trace. *)
Definition evaluated (t : list effect) : list string :=
  flat_map (fun e => match e with EEval r => [r] | _ => [] end) t.

Definition notifications (t : list effect) : list (message * json) :=
  flat_map (fun e => match e with EPost m a => [(m, a)] | _ => [] end) t.

Definition fetches (t : list effect) : list (json * string) :=
  flat_map (fun e => match e with EGetObject b k => [(b, k)] | _ => [] end) t.

(* ================================================================== *)
(** ** The handler (main.py, lines 40-193) *)

(** [ProcessingResult] and the entries of its error list
    ([{"error": e, "rule": rule}]). *)
Record rule_error : Type := {
  error : exn;
  rule : string
}.

Record ProcessingResult : Type := {
  should_be_processed : bool;
  errors : list rule_error
}.

(** The dictionary built at lines 115-118. *)
Record cloudtrail_log_record : Type := {
  key : string;
  events : json
}.

(** A [for] loop over rules either returns from the function or falls
    through to the statement after it with the errors collected so far. *)
Inductive loop_exit : Type :=
| Returned (r : ProcessingResult)
| Fell_through (errors : list rule_error).

Section Handler.
Variable W : World.
Variable cfg : Config.

Definition log (lvl : level) (what : string) : M unit :=
  emit (ELog lvl what).

(** [eval(rule, {}, {"event": flat_event})], the outcome handed to the
    enclosing [try]. *)
Definition eval (rule : string) (flat : flat_event) : M (result json) :=
  emit (EEval rule) ;; ret (py_eval W rule flat).

Definition post_message (m : message) (account_id : json) : M unit :=
  fun h =>
    ([EPost m account_id],
     match post_message_raises W h m account_id with
     | None => Return tt
     | Some e => Raise e
     end).

(** Lines 143-150 and 152-159: the two loops differ in the value returned
    on a match ([answer]) and in the text logged.  [except Exception]
    (lines 148, 157) catches the [Exception]s of [eval] only. *)
Fixpoint for_rule_in (answer : bool) (flat : flat_event)
    (rule_list : list string) (errors : list rule_error) : M loop_exit :=
  match rule_list with
  | [] => ret (Fell_through errors)
  | rule :: rest =>
      outcome <- eval rule flat ;;
      match outcome with
      | Return v =>
          if Py.is_True v then
            log INFO
              (if answer
               then "Event matched rule and will be processed"
               else "Event matched ignore rule and will not be processed") ;;
            ret (Returned {| should_be_processed := answer;
                             errors := errors |})
          else for_rule_in answer flat rest errors
      | Raise e =>
          log ERROR "Event parsing failed" ;;
          for_rule_in answer flat rest
            (errors ++ [{| error := e; rule := rule |}])
      | RaiseBase b => lift (RaiseBase b)
      end
  end.

(** Lines 131-162. *)
Definition should_message_be_processed (event : json)
    (rules ignore_rules : list string) : M ProcessingResult :=
  let flat_event := flatten_json event in
  user <- lift (Py.getitem event "userIdentity") ;;
  event_name <- lift (Py.getitem event "eventName") ;;
  log DEBUG "Rules" ;;
  log DEBUG "Flattened event" ;;
  ignored <- for_rule_in false flat_event ignore_rules [] ;;
  match ignored with
  | Returned r => ret r
  | Fell_through errors =>
      matched <- for_rule_in true flat_event rules errors ;;
      match matched with
      | Returned r => ret r
      | Fell_through errors =>
          log INFO
            "Event did not match any rules and will not be processed" ;;
          ret {| should_be_processed := false; errors := errors |}
      end
  end.

(** [x["userIdentity"]["accountId"] if "accountId" in x["userIdentity"]
    else ""] (lines 74 and 173). *)
Definition account_id_of (x : json) : result json :=
  let? user := Py.getitem x "userIdentity" in
  let? present := Py.contains "accountId" user in
  if present then
    let? user := Py.getitem x "userIdentity" in
    Py.getitem user "accountId"
  else Return (JStr "").

(** ["errorCode" in event and "AccessDenied" in event["errorCode"]]. *)
Definition access_denied (event : json) : result bool :=
  let? present := Py.contains "errorCode" event in
  if present then
    let? code := Py.getitem event "errorCode" in
    Py.contains "AccessDenied" code
  else Return false.

(** Lines 165-193. *)
Definition handle_event (event : json) (source_file_object_key : string)
    (rules ignore_rules : list string) : M unit :=
  result <- should_message_be_processed event rules ignore_rules ;;
  account_id <- lift (account_id_of event) ;;
  when (rule_evaluation_errors_to_slack cfg)
    (for_each (errors result) (fun failed =>
       post_message
         (message_for_rule_evaluation_error_notification
            (error failed) source_file_object_key (rule failed))
         account_id)) ;;
  if negb (should_be_processed result) then ret tt
  else
    denied <- lift (access_denied event) ;;
    when denied (log INFO "errorCode AccessDenied") ;;
    post_message
      (event_to_slack_message event (JStr source_file_object_key) account_id)
      account_id.

(** Lines 70-80. *)
Definition handle_removed_object_record (record : json) : M unit :=
  log INFO "s3:ObjectRemoved event" ;;
  account_id <- lift (account_id_of record) ;;
  source_file <- lift (Py.getpath record ["s3"; "object"; "key"]) ;;
  post_message (event_to_slack_message record source_file account_id)
    account_id.

(** [urllib.parse.unquote_plus(k, encoding="utf-8")]: a string function;
    anything else has no [replace] method. *)
Definition unquote_key (k : json) : result string :=
  match k with
  | JStr s => Return (unquote_plus W s)
  | _ => Raise AttributeError
  end.

(** Lines 111-114, one call on the object store. *)
Definition get_object (bucket : json) (key : string) : M json :=
  fun h => ([EGetObject bucket key], get_object_json W h bucket key).

(** Lines 98-123.  Creating the client (line 100) touches no object and
    is left out. *)
Definition get_cloudtrail_log_records (record : json)
    : M (option cloudtrail_log_record) :=
  has_s3 <- lift (Py.contains "s3" record) ;;
  if negb has_s3 then raise AssertionError
  else
    bucket <- lift (Py.getpath record ["s3"; "bucket"; "name"]) ;;
    quoted <- lift (Py.getpath record ["s3"; "object"; "key"]) ;;
    key <- lift (unquote_key quoted) ;;
    if PyStr.contains "Digest" key then ret None
    else
      try_except
        (content_as_json <- get_object bucket key ;;
         records <- lift (Py.getitem content_as_json "Records") ;;
         ret (Some {| key := key; events := records |}))
        (fun e => log ERROR "Error getting object" ;; raise e).

(** Lines 83-95; [cfg_] is the function's own parameter. *)
Definition handle_created_object_record (record : json) (cfg_ : Config)
    : M unit :=
  cloudtrail_log_record <- get_cloudtrail_log_records record ;;
  match cloudtrail_log_record with
  | Some batch =>
      sub_events <- lift (Py.iterate (events batch)) ;;
      for_each sub_events (fun cloudtrail_log_event =>
        handle_event cloudtrail_log_event (key batch)
          (rules cfg_) (ignore_rules cfg_))
  | None => ret tt
  end.

(** Lines 44-59: the body of the loop over the records. *)
Definition dispatch_record (s3_notification_event record : json) : M unit :=
  event_name <- lift (Py.getitem record "eventName") ;;
  quoted <- lift (Py.getpath record ["s3"; "object"; "key"]) ;;
  digest <- lift (Py.contains "Digest" quoted) ;;
  when (negb digest) (log DEBUG "s3_notification_event") ;;
  removed <- lift (Py.startswith event_name "ObjectRemoved") ;;
  if removed then handle_removed_object_record record
  else
    created <- lift (Py.startswith event_name "ObjectCreated") ;;
    if created then handle_created_object_record record cfg
    else ret tt.

(** Lines 43-59: what the [try] protects. *)
Definition process_records (s3_notification_event : json) : M unit :=
  records <- lift (Py.getitem s3_notification_event "Records") ;;
  records <- lift (Py.iterate records) ;;
  for_each records (dispatch_record s3_notification_event).

(** Lines 61-66: the [except Exception as e] clause. *)
Definition report_failure (s3_notification_event : json) (e : exn)
    : M unit :=
  post_message
    (message_for_slack_error_notification e s3_notification_event) JNull ;;
  log ERROR "Failed to process event".

(** Lines 40-67. *)
Definition lambda_handler (s3_notification_event : json) : M Z :=
  try_except (process_records s3_notification_event)
    (report_failure s3_notification_event) ;;
  ret 200%Z.

End Handler.

(* ================================================================== *)
(** ** The rule evaluator in the words of the specification *)

Section RuleSemantics.
Variable W : World.
Variable flat : flat_event.

(** The expression evaluates to boolean true. *)
Definition matches (rule : string) : bool :=
  match py_eval W rule flat with
  | Return v => Py.is_True v
  | Raise _ => false
  | RaiseBase _ => false
  end.

(** The rules of a list up to and including the first that matches (all
    of them when none does). *)
Fixpoint through_first_match (rule_list : list string) : list string :=
  match rule_list with
  | [] => []
  | rule :: rest =>
      if matches rule then [rule] else rule :: through_first_match rest
  end.

(** One record per rule of the list whose evaluation raises an
    [Exception]. *)
Fixpoint raised (rule_list : list string) : list rule_error :=
  match rule_list with
  | [] => []
  | rule :: rest =>
      match py_eval W rule flat with
      | Raise e => {| error := e; rule := rule |} :: raised rest
      | Return _ => raised rest
      | RaiseBase _ => raised rest
      end
  end.

(** Ignore-rules first, then match-rules; the first match decides. *)
Definition verdict (rules ignore_rules : list string) : ProcessingResult :=
  {| should_be_processed :=
       negb (existsb matches ignore_rules) && existsb matches rules;
     errors := raised (through_first_match (ignore_rules ++ rules)) |}.

End RuleSemantics.

(** The notifications about one sub-event when nothing raises: one per
    collected error if the toggle is on, then one for the event if it is
    to be processed. *)
Definition report_of (object_key : string) (account_id : json)
    (failed : rule_error) : message * json :=
  (message_for_rule_evaluation_error_notification
     (error failed) object_key (rule failed), account_id).

Definition expected_notifications (W : World) (cfg : Config)
    (object_key : string) (rules ignore_rules : list string)
    (event : json) : list (message * json) :=
  let result := verdict W (flatten_json event) rules ignore_rules in
  let account_id :=
    match account_id_of event with Return a => a | _ => JStr "" end in
  (if rule_evaluation_errors_to_slack cfg
   then map (report_of object_key account_id) (errors result)
   else [])
  ++ (if should_be_processed result
      then [(event_to_slack_message event (JStr object_key) account_id,
             account_id)]
      else []).

(** A sub-event of the shape the data model gives it: an actor identity
    whose account id can be read or is absent, an event name, and an error
    code (if any) that supports a membership test. *)
Definition well_shaped (event : json) : Prop :=
  (exists user, Py.getitem event "userIdentity" = Return user)
  /\ (exists name, Py.getitem event "eventName" = Return name)
  /\ (exists account_id, account_id_of event = Return account_id)
  /\ (exists denied, access_denied event = Return denied).

(** The key whose lookup fails first at lines 137-138 when one fails. *)
Definition first_missing_key (members : dict json) : string :=
  match Dict.get "userIdentity" members with
  | None => "userIdentity"
  | Some _ => "eventName"
  end.

(** A notifier that never raises. *)
Definition reliable (W : World) : Prop :=
  forall h m account_id, post_message_raises W h m account_id = None.

(** Counting effects of a kind. *)
Definition count (p : effect -> bool) (t : list effect) : nat :=
  length (filter p t).

Definition is_post (e : effect) : bool :=
  match e with EPost _ _ => true | _ => false end.

Definition is_event_post (e : effect) : bool :=
  match e with EPost (event_to_slack_message _ _ _) _ => true | _ => false end.

Definition is_rule_error_post (e : effect) : bool :=
  match e with
  | EPost (message_for_rule_evaluation_error_notification _ _ _) _ => true
  | _ => false
  end.

Definition is_slack_error_post (e : effect) : bool :=
  match e with
  | EPost (message_for_slack_error_notification _ _) _ => true
  | _ => false
  end.

(** A notification that carries an account id other than the empty
    string. *)
Definition is_empty_str (x : json) : bool :=
  match x with
  | JStr EmptyString => true
  | _ => false
  end.

Definition posts_other_account (e : effect) : bool :=
  match e with
  | EPost (event_to_slack_message _ _ from_event) account_id =>
      negb (is_empty_str from_event && is_empty_str account_id)
  | EPost _ account_id => negb (is_empty_str account_id)
  | _ => false
  end.

(** The computation adds at most [n] effects of the kind, whatever the
    history and however it ends. *)
Definition at_most {A} (p : effect -> bool) (n : nat) (m : M A) : Prop :=
  forall h, count p (fst (m h)) <= n.

(* ================================================================== *)
(** ** Concrete inputs *)

(** [{"a.b": 1, "a": {"b": 2}}]: a key that contains the separator. *)
Definition colliding : json :=
  JDict [("a.b", JInt 1); ("a", JDict [("b", JInt 2)])].

(** A few rule expressions with the values Python gives them; any other
    text stands for one that does not parse. *)
Definition sample_eval (rule : string) (flat : flat_event) : result json :=
  if (rule =? "__import__('sys').exit(3)")%string
  then RaiseBase (SystemExit 3)
  else if (rule =? "True")%string then Return (JBool true)
  else if (rule =? "False")%string then Return (JBool false)
  else if (rule =? "1")%string then Return (JInt 1)
  else if (rule =? "event['eventName'] == 'ConsoleLogin'")%string then
    match Dict.get "eventName" flat with
    | Some v => Return (JBool (Py.is_str "ConsoleLogin" v))
    | None => Raise (KeyError "eventName")
    end
  else if (rule =? "event['errorCode'] == 'AccessDenied'")%string then
    match Dict.get "errorCode" flat with
    | Some v => Return (JBool (Py.is_str "AccessDenied" v))
    | None => Raise (KeyError "errorCode")
    end
  else Raise (Failure "SyntaxError").

(** [urllib.parse.unquote_plus] on ASCII keys: "+" is a space and "%XY" the
    character with hexadecimal code XY. *)
Definition hex_digit (c : ascii) : option N :=
  let n := N_of_ascii c in
  if ((48 <=? n) && (n <=? 57))%N then Some (n - 48)%N
  else if ((65 <=? n) && (n <=? 70))%N then Some (n - 55)%N
  else if ((97 <=? n) && (n <=? 102))%N then Some (n - 87)%N
  else None.

Fixpoint ascii_unquote_plus (s : string) : string :=
  match s with
  | EmptyString => EmptyString
  | String c rest =>
      if Ascii.eqb c "+" then String " " (ascii_unquote_plus rest)
      else if Ascii.eqb c "%" then
        match rest with
        | String a (String b rest') =>
            match hex_digit a, hex_digit b with
            | Some x, Some y =>
                String (ascii_of_N (16 * x + y)) (ascii_unquote_plus rest')
            | _, _ => String c (ascii_unquote_plus rest)
            end
        | _ => String c (ascii_unquote_plus rest)
        end
      else String c (ascii_unquote_plus rest)
  end.

(** Sub-events. *)
Definition console_login : json :=
  JDict [("eventName", JStr "ConsoleLogin");
         ("userIdentity",
          JDict [("type", JStr "Root"); ("accountId", JStr "123456789012")])].

Definition service_event : json :=
  JDict [("eventName", JStr "AssumeRole");
         ("userIdentity", JDict [("type", JStr "AWSService")])].

Definition nameless_event : json :=
  JDict [("userIdentity", JDict [("type", JStr "Root")])].

(** The decoded content of a log object. *)
Definition sample_content : json :=
  JDict [("Records", JList [console_login; service_event])].

(** Change notification records. *)
Definition record_for (event_name object_key : string) : json :=
  JDict [("eventName", JStr event_name);
         ("userIdentity", JDict [("principalId", JStr "AWS:AIDAEXAMPLE")]);
         ("s3", JDict [("bucket", JDict [("name", JStr "trail-bucket")]);
                       ("object", JDict [("key", JStr object_key)])])].

Definition removed_record : json :=
  record_for "ObjectRemoved:Delete"
    "AWSLogs/123456789012/CloudTrail/log.json.gz".

Definition created_record : json :=
  record_for "ObjectCreated:Put"
    "AWSLogs/123456789012/CloudTrail/log.json.gz".

(** The quoted key does not contain "Digest"; the decoded key does. *)
Definition digest_record : json :=
  record_for "ObjectCreated:Put"
    "AWSLogs/123456789012/CloudTrail-D%69gest/d.json.gz".

Definition batch_of (records : list json) : json :=
  JDict [("Records", JList records)].

(** Worlds: every object holds [content]; the notifier raises what
    [slack] says. *)
Definition world_with (content : json) (slack : message -> option exn)
    : World :=
  {| py_eval := sample_eval;
     unquote_plus := ascii_unquote_plus;
     get_object_json := fun _ _ _ => Return content;
     post_message_raises := fun _ m _ => slack m |}.

(** The notifier works. *)
Definition quiet_world : World :=
  world_with sample_content (fun _ => None).

(** The notifier raises on every call. *)
Definition slack_down : World :=
  world_with sample_content (fun _ => Some (Failure "URLError")).

(** The notifier raises on rule-evaluation-error notifications only. *)
Definition reports_rejected : World :=
  world_with sample_content
    (fun m =>
       match m with
       | message_for_rule_evaluation_error_notification _ _ _ =>
           Some (Failure "HTTPError")
       | _ => None
       end).

(** One sub-event in the object. *)
Definition one_event_world : World :=
  world_with (JDict [("Records", JList [service_event])]) (fun _ => None).

(** Configurations.  The second rule of [reporting_rules] is not an
    expression ([SyntaxError]); the first raises [KeyError] on events
    without an error code. *)
Definition login_rules : Config :=
  {| rules := ["event['eventName'] == 'ConsoleLogin'"];
     ignore_rules := [];
     rule_evaluation_errors_to_slack := false |}.

Definition reporting_rules : Config :=
  {| rules := ["event['errorCode'] == 'AccessDenied'"; "event[";
               "event['eventName'] == 'ConsoleLogin'"];
     ignore_rules := [];
     rule_evaluation_errors_to_slack := true |}.

Definition accept_after_error : Config :=
  {| rules := ["event["; "True"];
     ignore_rules := [];
     rule_evaluation_errors_to_slack := true |}.

(* ================================================================== *)
(** ** Further notions and inputs *)

(** The entries of a flattened mapping below the segment [a]. *)
Definition prefix_keys (a : string) (d : flat_event) : flat_event :=
  map (fun kv => ((a ++ "." ++ fst kv)%string, snd kv)) d.

Definition is_fetch (e : effect) : bool :=
  match e with EGetObject _ _ => true | _ => false end.

(** The rules of the list raise nothing but [Exception]s on the flattened
    event: what lines 148 and 157 catch. *)
Definition contained (W : World) (flat : flat_event)
    (rule_list : list string) : Prop :=
  Forall (fun rule => forall b, py_eval W rule flat <> RaiseBase b) rule_list.

(** The rules evaluated on a sub-event (those of the ignore list, then of
    the match list, up to the first that evaluates to [True]) return a
    value or raise an [Exception]. *)
Definition rules_contained (W : World) (rules ignore_rules : list string)
    (event : json) : Prop :=
  contained W (flatten_json event)
    (through_first_match W (flatten_json event) (ignore_rules ++ rules)).

(** The object store raises nothing but [Exception]s. *)
Definition fetch_contained (W : World) : Prop :=
  forall h bucket key b, get_object_json W h bucket key <> RaiseBase b.

(** The computation raises nothing but [Exception]s, whatever the
    history. *)
Definition catchable {A} (m : M A) : Prop :=
  forall h b, snd (m h) <> RaiseBase b.

(** A configuration with a rule that exits. *)
Definition exiting_rules : Config :=
  {| rules := ["__import__('sys').exit(3)"; "True"];
     ignore_rules := [];
     rule_evaluation_errors_to_slack := true |}.

(** What line 111-117 yield for the object: its "Records" or the exception
    of the fetch, of the decoding or of the lookup. *)
Definition records_of_object (W : World) (h : history) (bucket : json)
    (key : string) : result json :=
  let? content_as_json := get_object_json W h bucket key in
  Py.getitem content_as_json "Records".

(** The object store raises on every call. *)
Definition store_down : World :=
  {| py_eval := sample_eval;
     unquote_plus := ascii_unquote_plus;
     get_object_json := fun _ _ _ => Raise (Failure "NoSuchKey");
     post_message_raises := fun _ _ _ => None |}.

(** A record of a type the dispatcher does not handle, one without its
    "s3" section and one without actor identity. *)
Definition restored_record : json :=
  record_for "ObjectRestore:Completed"
    "AWSLogs/123456789012/CloudTrail/log.json.gz".

Definition sectionless_record : json :=
  JDict [("eventName", JStr "ObjectCreated:Put")].

Definition anonymous_removal : json :=
  JDict [("eventName", JStr "ObjectRemoved:Delete");
         ("s3", JDict [("bucket", JDict [("name", JStr "trail-bucket")]);
                       ("object", JDict [("key", JStr "log.json.gz")])])].

(** A sub-event whose error code is [null]. *)
Definition null_error_code : json :=
  JDict [("eventName", JStr "ConsoleLogin");
         ("errorCode", JNull);
         ("userIdentity", JDict [("type", JStr "Root")])].

(* ================================================================== *)
(** * Properties *)

Unset Implicit Arguments.

(** ** Strings *)

Module PyStrFacts.
Import PyStr.
#[local] Open Scope string_scope.

Lemma append_assoc (a b c : string) : (a ++ b) ++ c = a ++ (b ++ c).
Proof. induction a as [|x a IH]; simpl; [reflexivity | now rewrite IH]. Qed.

Lemma append_nil_r (a : string) : a ++ "" = a.
Proof. induction a as [|x a IH]; simpl; [reflexivity | now rewrite IH]. Qed.

Lemma append_inj_l (a b c : string) : a ++ b = a ++ c -> b = c.
Proof.
  induction a as [|x a IH]; simpl; intros H; [exact H|].
  injection H as H. now apply IH.
Qed.

Lemma drop_last_snoc (s : string) (c : ascii) :
  drop_last (s ++ String c "") = s.
Proof.
  induction s as [|x s IH]; simpl; [reflexivity|].
  rewrite IH. destruct s; reflexivity.
Qed.

Lemma drop_last_dot (s : string) : drop_last (s ++ ".") = s.
Proof. apply drop_last_snoc. Qed.

Lemma has_char_app (c : ascii) (a b : string) :
  has_char c (a ++ b) = has_char c a || has_char c b.
Proof.
  induction a as [|x a IH]; simpl; [reflexivity|].
  now rewrite IH, orb_assoc.
Qed.

(** A separator-free segment is recovered from whatever follows its
    separator. *)
Lemma segment_inj (a b m n : string) :
  dot_free a -> dot_free b ->
  a ++ "." ++ m = b ++ "." ++ n -> a = b /\ m = n.
Proof.
  unfold dot_free, dot. revert b.
  induction a as [|x a IH]; intros [|y b] Ha Hb H; simpl in H.
  - injection H as H. now split.
  - injection H as Hc _. subst y. simpl in Hb. discriminate.
  - injection H as Hc _. subst x. simpl in Ha. discriminate.
  - injection H as Hc H. subst y.
    cbn [has_char] in Ha, Hb.
    apply orb_false_elim in Ha as [_ Ha].
    apply orb_false_elim in Hb as [_ Hb].
    destruct (IH b Ha Hb H) as [-> ->]. now split.
Qed.

Lemma numeral_dot_free (d : Decimal.uint) :
  dot_free (NilEmpty.string_of_uint d).
Proof.
  unfold dot_free. induction d; simpl; try reflexivity; exact IHd.
Qed.

Lemma str_dot_free (i : nat) : dot_free (str i).
Proof. apply numeral_dot_free. Qed.

Lemma str_inj (i j : nat) : str i = str j -> i = j.
Proof.
  unfold str. intros H.
  assert (E : Some (Nat.to_uint i) = Some (Nat.to_uint j)).
  { rewrite <- (NilEmpty.usu (Nat.to_uint i)).
    rewrite <- (NilEmpty.usu (Nat.to_uint j)).
    now rewrite H. }
  injection E as E.
  rewrite <- (Unsigned.of_to i), <- (Unsigned.of_to j). now rewrite E.
Qed.

End PyStrFacts.

(** ** Dictionaries *)

Module DictFacts.
Section Facts.
Variable V : Type.
Implicit Types (d : dict V) (k : string) (v : V).

Lemma get_set_same k v d : Dict.get k (Dict.set k v d) = Some v.
Proof.
  induction d as [|[k' v'] d IH]; simpl.
  - now rewrite String.eqb_refl.
  - destruct (String.eqb k k') eqn:E; simpl; rewrite E; auto.
Qed.

Lemma get_set_other k k' v d :
  k <> k' -> Dict.get k (Dict.set k' v d) = Dict.get k d.
Proof.
  intros Hne. induction d as [|[k0 v0] d IH]; simpl.
  - apply String.eqb_neq in Hne. now rewrite Hne.
  - destruct (String.eqb k' k0) eqn:E; simpl.
    + apply String.eqb_eq in E. subst k0.
      apply String.eqb_neq in Hne. now rewrite Hne.
    + now rewrite IH.
Qed.

Lemma mem_set k k' v d :
  Dict.mem k (Dict.set k' v d) = String.eqb k k' || Dict.mem k d.
Proof.
  unfold Dict.mem. destruct (String.eqb k k') eqn:E.
  - apply String.eqb_eq in E. subst. now rewrite get_set_same.
  - apply String.eqb_neq in E. now rewrite (get_set_other k k' v d E).
Qed.

Lemma mem_keys k d : Dict.mem k d = true <-> In k (Dict.keys d).
Proof.
  unfold Dict.mem. induction d as [|[k' v'] d IH]; simpl.
  - split; [discriminate | tauto].
  - destruct (String.eqb k k') eqn:E.
    + apply String.eqb_eq in E. subst. tauto.
    + apply String.eqb_neq in E. rewrite IH. split; [tauto|].
      intros [H|H]; [congruence | exact H].
Qed.

Lemma set_fresh k v d :
  ~ In k (Dict.keys d) -> Dict.set k v d = d ++ [(k, v)].
Proof.
  induction d as [|[k' v'] d IH]; simpl; intros H; [reflexivity|].
  destruct (String.eqb k k') eqn:E.
  - apply String.eqb_eq in E. subst. tauto.
  - rewrite IH; tauto.
Qed.

Lemma set_keeps_unique k v d :
  Dict.unique_keys d -> Dict.unique_keys (Dict.set k v d).
Proof.
  unfold Dict.unique_keys, Dict.keys.
  induction d as [|[k' v'] d IH]; simpl; intros H.
  - constructor; [tauto | constructor].
  - inversion H as [|? ? Hnin Hd]; subst.
    destruct (String.eqb k k') eqn:E; simpl.
    + now constructor.
    + constructor; [|now apply IH].
      intros Hin. apply Hnin.
      change (In k' (Dict.keys (Dict.set k v d))) in Hin.
      apply mem_keys in Hin. rewrite mem_set in Hin.
      apply mem_keys.
      rewrite String.eqb_sym, E in Hin. exact Hin.
Qed.

(** Writing entries with pairwise distinct fresh keys appends them. *)
Lemma writes_fresh (kvs : list (string * V)) d :
  NoDup (map fst kvs) ->
  (forall k, In k (map fst kvs) -> ~ In k (Dict.keys d)) ->
  fold_left (fun o kv => Dict.set (fst kv) (snd kv) o) kvs d = d ++ kvs.
Proof.
  revert d. induction kvs as [|[k v] kvs IH]; simpl; intros d Hnd Hfresh.
  - now rewrite app_nil_r.
  - inversion Hnd as [|? ? Hk Hnd']; subst.
    rewrite set_fresh by (apply Hfresh; now left).
    rewrite IH; [now rewrite <- app_assoc | exact Hnd'|].
    intros k' Hin. unfold Dict.keys. rewrite map_app, in_app_iff. simpl.
    intros [H|[H|[]]].
    + revert H. apply Hfresh. now right.
    + congruence.
Qed.

Lemma get_unique k v d :
  Dict.unique_keys d -> In (k, v) d -> Dict.get k d = Some v.
Proof.
  unfold Dict.unique_keys, Dict.keys.
  induction d as [|[k' v'] d IH]; simpl; intros Hnd Hin; [tauto|].
  inversion Hnd as [|? ? Hk Hnd']; subst.
  destruct Hin as [Heq|Hin].
  - injection Heq as -> ->. now rewrite String.eqb_refl.
  - destruct (String.eqb k k') eqn:E; [|now apply IH].
    apply String.eqb_eq in E. subst k'.
    exfalso. apply Hk. now apply (in_map fst) in Hin.
Qed.

End Facts.
End DictFacts.

(** ** [flatten_json] against the traversal of the specification *)

Module FlattenFacts.
Import PyStr PyStrFacts.

Lemma flatten_dict d name out :
  flatten (JDict d) name out = flatten_members d name out.
Proof.
  simpl. revert out.
  induction d as [|[a xa] d IH]; intros out; simpl; [reflexivity | apply IH].
Qed.

Lemma flatten_list l name out :
  flatten (JList l) name out = flatten_items l 0 name out.
Proof.
  simpl. generalize 0. revert out.
  induction l as [|a l IH]; intros out i; simpl; [reflexivity | apply IH].
Qed.

Lemma leaves_dict d : leaves (JDict d) = leaves_members d.
Proof.
  simpl. induction d as [|[a xa] d IH]; simpl; [reflexivity | now rewrite IH].
Qed.

Lemma leaves_list l : leaves (JList l) = leaves_items l 0.
Proof.
  simpl. generalize 0.
  induction l as [|a l IH]; intros i; simpl; [reflexivity | now rewrite IH].
Qed.

(** Recording below a segment is recording with the extended prefix. *)
Lemma record_leaf_under name s out leaf :
  record_leaf name out (under s leaf)
  = record_leaf (name ++ segment_text s ++ ".")%string out leaf.
Proof.
  unfold record_leaf, under. simpl.
  now rewrite !append_assoc.
Qed.

Lemma fold_record_under name s ls out :
  fold_left (record_leaf name) (map (under s) ls) out
  = fold_left (record_leaf (name ++ segment_text s ++ ".")%string) ls out.
Proof.
  revert out. induction ls as [|leaf ls IH]; intros out; simpl.
  - reflexivity.
  - now rewrite record_leaf_under, IH.
Qed.

(** [flatten] performs, in order, one write per leaf of the traversal. *)
Lemma flatten_leaves x :
  forall name out,
    flatten x name out = fold_left (record_leaf name) (leaves x) out.
Proof.
  induction x as [| b | n | s | l IH | d IH] using json_nested_ind;
    intros name out;
    try (simpl; unfold record_leaf; simpl; now rewrite append_nil_r).
  - rewrite flatten_list, leaves_list. generalize 0. revert out.
    induction IH as [|a l Ha _ IHl]; intros out i; simpl; [reflexivity|].
    rewrite fold_left_app, IHl, Ha.
    now rewrite (fold_record_under name (Index i)).
  - rewrite flatten_dict, leaves_dict. revert out.
    induction IH as [|[a xa] d Ha _ IHd]; intros out; simpl; [reflexivity|].
    simpl in Ha.
    rewrite fold_left_app, IHd, Ha.
    now rewrite (fold_record_under name (Key a)).
Qed.

Lemma flatten_json_leaves y :
  flatten_json y = fold_left write_leaf (leaves y) [].
Proof. unfold flatten_json. now rewrite flatten_leaves. Qed.

Lemma leaves_scalar x :
  forall p v, In (p, v) (leaves x) -> is_scalar v = true.
Proof.
  induction x as [| b | n | s | l IH | d IH] using json_nested_ind;
    intros p v Hin;
    try (simpl in Hin; destruct Hin as [Heq|[]]; injection Heq as _ <-;
         reflexivity).
  - rewrite leaves_list in Hin. revert Hin. generalize 0.
    induction IH as [|a l Ha _ IHl]; intros i Hin; simpl in Hin; [tauto|].
    apply in_app_iff in Hin as [Hin|Hin]; [|now apply (IHl (S i))].
    apply in_map_iff in Hin as [[q w] [Heq Hin]].
    injection Heq as _ <-. now apply (Ha q).
  - rewrite leaves_dict in Hin. revert Hin.
    induction IH as [|[a xa] d Ha _ IHd]; intros Hin; simpl in Hin; [tauto|].
    apply in_app_iff in Hin as [Hin|Hin]; [|now apply IHd].
    apply in_map_iff in Hin as [[q w] [Heq Hin]].
    injection Heq as _ <-. now apply (Ha q).
Qed.

Lemma mem_writes k (ls : list (path * json)) out :
  Dict.mem k (fold_left write_leaf ls out) = true
  <-> Dict.mem k out = true
      \/ In k (map (fun leaf => path_key (fst leaf)) ls).
Proof.
  revert out. induction ls as [|leaf ls IH]; intros out; simpl; [tauto|].
  rewrite IH. unfold write_leaf. rewrite DictFacts.mem_set.
  rewrite orb_true_iff, String.eqb_eq.
  split; intros H; intuition (subst; auto).
Qed.

Lemma in_leaves_members a x d leaf :
  Dict.get a d = Some x -> In leaf (leaves x) ->
  In (under (Key a) leaf) (leaves_members d).
Proof.
  induction d as [|[a' x'] d IH]; simpl; [discriminate|].
  intros Hget Hin. apply in_app_iff.
  destruct (String.eqb a a') eqn:E.
  - apply String.eqb_eq in E. subst a'. injection Hget as ->.
    left. now apply in_map.
  - right. now apply IH.
Qed.

Lemma in_leaves_items i x l leaf :
  nth_error l i = Some x -> In leaf (leaves x) ->
  forall start, In (under (Index (start + i)) leaf) (leaves_items l start).
Proof.
  revert i. induction l as [|a l IH]; intros [|i] Hnth Hin start;
    simpl in *; try discriminate; apply in_app_iff.
  - injection Hnth as ->. left. rewrite Nat.add_0_r. now apply in_map.
  - right. replace (start + S i) with (S start + i) by lia. now apply IH.
Qed.

End FlattenFacts.

(** ** When flattened keys cannot collide *)

Module CollisionFacts.
Import PyStr PyStrFacts FlattenFacts.
#[local] Open Scope string_scope.

Lemma well_formed_list l :
  well_formed (JList l) <-> Forall well_formed l.
Proof.
  simpl. induction l as [|a l IH]; [split; auto|].
  rewrite IH. split.
  - intros [H1 H2]. now constructor.
  - intros H. inversion H; subst. now split.
Qed.

Lemma well_formed_dict d :
  well_formed (JDict d)
  <-> NoDup (map fst d) /\ Forall (fun kv => well_formed (snd kv)) d.
Proof.
  simpl. apply and_iff_compat_l.
  induction d as [|[a xa] d IH]; [split; auto|].
  rewrite IH. split.
  - intros [H1 H2]. now constructor.
  - intros H. inversion H; subst. now split.
Qed.

Lemma keys_dot_free_list l :
  keys_dot_free (JList l) <-> Forall keys_dot_free l.
Proof.
  simpl. induction l as [|a l IH]; [split; auto|].
  rewrite IH. split.
  - intros [H1 H2]. now constructor.
  - intros H. inversion H; subst. now split.
Qed.

Lemma keys_dot_free_dict d :
  keys_dot_free (JDict d)
  <-> Forall (fun kv => dot_free (fst kv) /\ keys_dot_free (snd kv)) d.
Proof.
  simpl. induction d as [|[a xa] d IH]; [split; auto|].
  rewrite IH. split.
  - intros (H1 & H2 & H3). now constructor.
  - intros H. inversion H as [|? ? [H1 H2] H3]; subst. now repeat split.
Qed.

Lemma leaf_names_under s ls :
  leaf_names (map (under s) ls)
  = map (fun n => segment_text s ++ "." ++ n) (leaf_names ls).
Proof. unfold leaf_names. now rewrite !map_map. Qed.

Lemma leaf_names_app ls ls' :
  leaf_names (ls ++ ls') = (leaf_names ls ++ leaf_names ls')%list.
Proof. apply map_app. Qed.

(** Names below one separator-free segment stay apart from names below
    other segments. *)
Lemma nodup_prefixed a ns rest :
  dot_free a -> NoDup ns -> NoDup rest ->
  (forall n, In n rest ->
     exists a' m, n = a' ++ "." ++ m /\ dot_free a' /\ a' <> a) ->
  NoDup (map (fun n => (a ++ "." ++ n)%string) ns ++ rest)%list.
Proof.
  intros Ha Hns Hrest Hheads. apply NoDup_app; [|exact Hrest|].
  - apply NoDup_map_NoDup_ForallPairs; [|exact Hns].
    intros m n _ _ H. apply append_inj_l in H. now injection H.
  - intros n Hin Hin'.
    apply in_map_iff in Hin as (m & <- & _).
    destruct (Hheads _ Hin') as (a' & m' & Heq & Ha' & Hne).
    destruct (segment_inj _ _ _ _ Ha Ha' Heq) as [E _]. congruence.
Qed.

Lemma items_head l :
  forall i n, In n (leaf_names (leaves_items l i)) ->
    exists j m, n = str j ++ "." ++ m /\ i <= j.
Proof.
  induction l as [|a l IH]; intros i n Hin; simpl in Hin; [tauto|].
  rewrite leaf_names_app, leaf_names_under in Hin.
  apply in_app_iff in Hin as [Hin|Hin].
  - apply in_map_iff in Hin as (m & <- & _). exists i, m.
    split; [reflexivity | lia].
  - destruct (IH _ _ Hin) as (j & m & -> & Hj). exists j, m.
    split; [reflexivity | lia].
Qed.

Lemma members_head d :
  forall n, In n (leaf_names (leaves_members d)) ->
    exists a m, n = a ++ "." ++ m /\ In a (map fst d).
Proof.
  induction d as [|[a xa] d IH]; intros n Hin; simpl in Hin; [tauto|].
  rewrite leaf_names_app, leaf_names_under in Hin.
  apply in_app_iff in Hin as [Hin|Hin].
  - apply in_map_iff in Hin as (m & <- & _). exists a, m. simpl. auto.
  - destruct (IH _ Hin) as (a' & m & -> & Ha'). exists a', m. simpl. auto.
Qed.

(** Distinct leaf positions have distinct names (paths with every
    segment followed by the separator). *)
Lemma leaf_names_nodup x :
  well_formed x -> keys_dot_free x -> NoDup (leaf_names (leaves x)).
Proof.
  induction x as [| b | n | s | l IH | d IH] using json_nested_ind;
    intros Hwf Hdf;
    try (simpl; constructor; [simpl; tauto | constructor]).
  - rewrite leaves_list.
    apply well_formed_list in Hwf. apply keys_dot_free_list in Hdf.
    generalize 0.
    induction IH as [|a l Ha _ IHl]; intros i; simpl; [constructor|].
    inversion Hwf as [|? ? Hwa Hwl]; inversion Hdf as [|? ? Hda Hdl]; subst.
    rewrite leaf_names_app, leaf_names_under.
    apply nodup_prefixed.
    + apply str_dot_free.
    + now apply Ha.
    + now apply IHl.
    + intros n Hin. destruct (items_head _ _ _ Hin) as (j & m & -> & Hj).
      exists (str j), m. repeat split; [apply str_dot_free|].
      simpl. intros E. apply str_inj in E. lia.
  - rewrite leaves_dict.
    apply well_formed_dict in Hwf as [Hnd Hwf].
    apply keys_dot_free_dict in Hdf.
    induction IH as [|[a xa] d Ha _ IHd]; simpl; [constructor|].
    inversion Hwf as [|? ? Hwa Hwd]; subst.
    inversion Hdf as [|? ? [Hda Hdxa] Hdd]; subst.
    inversion Hnd as [|? ? Hnin Hnd']; subst.
    rewrite leaf_names_app, leaf_names_under.
    simpl in *.
    apply nodup_prefixed.
    + exact Hda.
    + now apply Ha.
    + now apply IHd.
    + intros n Hin. destruct (members_head _ _ Hin) as (a' & m & -> & Ha').
      exists a', m. repeat split.
      * rewrite Forall_forall in Hdd.
        apply in_map_iff in Ha' as (kv & <- & Hkv). now apply Hdd.
      * intros ->. contradiction.
Qed.

Lemma path_name_ends p : p <> [] -> exists s, path_name p = s ++ ".".
Proof.
  induction p as [|seg p IH]; intros Hne; [congruence|]. simpl.
  destruct p as [|seg' p].
  - exists (segment_text seg). reflexivity.
  - destruct IH as [s Hs]; [discriminate|].
    exists (segment_text seg ++ "." ++ s). rewrite Hs.
    now rewrite !append_assoc.
Qed.

(** The leaves of a container all lie strictly below it. *)
Lemma leaves_below x :
  is_scalar x = false ->
  forall p v, In (p, v) (leaves x) -> p <> [].
Proof.
  intros Hx p v Hin Hp. subst p.
  assert (Hunder : forall s (ls : list (path * json)),
             ~ In ([], v) (map (under s) ls)).
  { intros s ls H. apply in_map_iff in H as (leaf & Heq & _). discriminate. }
  destruct x as [| | | | l | d]; try discriminate.
  - rewrite leaves_list in Hin. revert Hin. generalize 0.
    induction l as [|a l IH]; intros i Hin; simpl in Hin; [tauto|].
    apply in_app_iff in Hin as [Hin|Hin]; [now apply Hunder in Hin | eauto].
  - rewrite leaves_dict in Hin.
    induction d as [|[a xa] d IH]; simpl in Hin; [tauto|].
    apply in_app_iff in Hin as [Hin|Hin]; [now apply Hunder in Hin | eauto].
Qed.

Lemma leaf_keys_nodup x :
  well_formed x -> keys_dot_free x -> NoDup (leaf_keys (leaves x)).
Proof.
  intros Hwf Hdf.
  destruct (is_scalar x) eqn:Hx.
  - destruct x; try discriminate; simpl;
      (constructor; [simpl; tauto | constructor]).
  - pose proof (leaf_names_nodup x Hwf Hdf) as Hnd.
    unfold leaf_keys, path_key.
    rewrite <- (map_map (fun leaf => path_name (fst leaf)) drop_last).
    apply NoDup_map_NoDup_ForallPairs; [|exact Hnd].
    intros m n Hm Hn E.
    apply in_map_iff in Hm as ([p v] & <- & Hp).
    apply in_map_iff in Hn as ([q w] & <- & Hq).
    simpl in *.
    destruct (path_name_ends p (leaves_below x Hx p v Hp)) as [s Hs].
    destruct (path_name_ends q (leaves_below x Hx q w Hq)) as [t Ht].
    rewrite Hs, Ht in *. rewrite !drop_last_dot in E. now subst.
Qed.

Lemma writes_as_entries ls out :
  fold_left write_leaf ls out
  = fold_left (fun o kv => Dict.set (fst kv) (snd kv) o) (map entry ls) out.
Proof.
  revert out. induction ls as [|leaf ls IH]; intros out; simpl;
    [reflexivity | apply IH].
Qed.

Lemma value_at_leaf :
  forall p x v, value_at x p = Some v -> is_scalar v = true ->
    In (p, v) (leaves x).
Proof.
  induction p as [|[a|i] p IH]; intros x v Hv Hs; simpl in Hv.
  - injection Hv as ->. destruct v; try discriminate; simpl; auto.
  - destruct x as [| | | | l | d]; try discriminate.
    destruct (Dict.get a d) as [xa|] eqn:Hget; [|discriminate].
    rewrite leaves_dict.
    apply (in_leaves_members a xa d (p, v) Hget (IH _ _ Hv Hs)).
  - destruct x as [| | | | l | d]; try discriminate.
    destruct (nth_error l i) as [a|] eqn:Hnth; [|discriminate].
    rewrite leaves_list.
    apply (in_leaves_items i a l (p, v) Hnth (IH _ _ Hv Hs) 0).
Qed.

End CollisionFacts.

(* ================================================================== *)
(** * The event flattener *)

(** C2.  [flatten_json] visits the structure depth-first and performs one
    write [out[key] = value] per leaf, in traversal order, where the key
    is the leaf's path (each mapping key and each sequence index followed
    by ".") without its trailing separator.  Every scalar value reachable
    in the structure is a leaf of the traversal and its key is present in
    the result; the result has no other key.  Flattening
    [{"a": [{"b": 1}, 2]}] gives exactly [{"a.0.b": 1, "a.1": 2}]. *)
Theorem flatten_json_depth_first :
  forall y : json,
    flatten_json y = fold_left write_leaf (leaves y) []
    /\ (forall p v, value_at y p = Some v -> is_scalar v = true ->
          In (p, v) (leaves y)
          /\ Dict.mem (path_key p) (flatten_json y) = true)
    /\ (forall k, Dict.mem k (flatten_json y) = true
                  <-> In k (leaf_keys (leaves y)))
    /\ (forall p v, In (p, v) (leaves y) -> is_scalar v = true)
    /\ leaves example_nested
       = [([Key "a"; Index 0; Key "b"], JInt 1); ([Key "a"; Index 1], JInt 2)]
    /\ flatten_json example_nested = [("a.0.b", JInt 1); ("a.1", JInt 2)].
Proof.
  intros y.
  assert (Hkeys : forall k, Dict.mem k (flatten_json y) = true
                            <-> In k (leaf_keys (leaves y))).
  { intros k. rewrite FlattenFacts.flatten_json_leaves, FlattenFacts.mem_writes.
    unfold Dict.mem at 1. simpl. unfold leaf_keys.
    split; [intros [H|H]; [discriminate | exact H] | now right]. }
  split; [apply FlattenFacts.flatten_json_leaves|].
  split.
  { intros p v Hv Hs.
    pose proof (CollisionFacts.value_at_leaf p y v Hv Hs) as Hin.
    split; [exact Hin|]. apply Hkeys.
    unfold leaf_keys. apply in_map_iff. now exists (p, v). }
  split; [exact Hkeys|].
  split; [apply FlattenFacts.leaves_scalar|].
  split; reflexivity.
Qed.

(** C3, as amended.  When no mapping key of the structure contains the
    separator ".", no two leaf positions produce the same flattened key:
    the result has exactly one entry per leaf, in traversal order, and
    looking up a leaf's key gives that leaf's value.  Flattening the same
    structure again gives the same mapping. *)
Theorem flatten_json_injective_on_dot_free_keys :
  forall y : json,
    well_formed y -> keys_dot_free y ->
    NoDup (leaf_keys (leaves y))
    /\ flatten_json y = map entry (leaves y)
    /\ (forall p v, In (p, v) (leaves y) ->
          Dict.get (path_key p) (flatten_json y) = Some v)
    /\ (forall y', y' = y -> flatten_json y' = flatten_json y).
Proof.
  intros y Hwf Hdf.
  pose proof (CollisionFacts.leaf_keys_nodup y Hwf Hdf) as Hnd.
  assert (Hmap : flatten_json y = map entry (leaves y)).
  { rewrite FlattenFacts.flatten_json_leaves, CollisionFacts.writes_as_entries.
    rewrite DictFacts.writes_fresh; [reflexivity | | intros k _ []].
    rewrite map_map. exact Hnd. }
  split; [exact Hnd|]. split; [exact Hmap|]. split.
  - intros p v Hin. rewrite Hmap.
    apply DictFacts.get_unique.
    + unfold Dict.unique_keys, Dict.keys. rewrite map_map. exact Hnd.
    + apply in_map_iff. now exists (p, v).
  - now intros y' ->.
Qed.

Lemma flatten_json_injective_witness :
  well_formed example_nested /\ keys_dot_free example_nested
  /\ NoDup (leaf_keys (leaves example_nested))
  /\ flatten_json example_nested = map entry (leaves example_nested).
Proof.
  assert (Hwf : well_formed example_nested).
  { simpl. repeat split; repeat constructor; simpl; tauto. }
  assert (Hdf : keys_dot_free example_nested).
  { simpl. repeat split; reflexivity. }
  split; [exact Hwf|]. split; [exact Hdf|].
  destruct (flatten_json_injective_on_dot_free_keys example_nested Hwf Hdf)
    as (H1 & H2 & _).
  split; [exact H1 | exact H2].
Defined.

(** C3 as stated fails: in [{"a.b": 1, "a": {"b": 2}}] the two leaves lie
    at different positions and share the key "a.b"; the flattened mapping
    holds one entry, with the value of the leaf visited last. *)
Lemma flatten_json_collision :
  well_formed colliding
  /\ leaves colliding
     = [([Key "a.b"], JInt 1); ([Key "a"; Key "b"], JInt 2)]
  /\ ~ NoDup (leaf_keys (leaves colliding))
  /\ flatten_json colliding = [("a.b", JInt 2)].
Proof.
  split.
  { simpl. repeat split; repeat constructor; simpl; intuition discriminate. }
  split; [reflexivity|]. split; [|reflexivity].
  simpl. intros H. inversion H as [|? ? Hnin _]; subst.
  apply Hnin. now left.
Qed.

(* ================================================================== *)
(** * Running computations *)

Module RunFacts.

Lemma bind_return {A B} (m : M A) (k : A -> M B) h t1 a :
  m h = (t1, Return a) ->
  bind m k h = (t1 ++ fst (k a (h ++ t1)), snd (k a (h ++ t1))).
Proof.
  intros Hm. unfold bind. rewrite Hm.
  now destruct (k a (h ++ t1)).
Qed.

Lemma bind_raise {A B} (m : M A) (k : A -> M B) h t1 e :
  m h = (t1, Raise e) -> bind m k h = (t1, Raise e).
Proof. intros Hm. unfold bind. now rewrite Hm. Qed.

Lemma bind_raise_base {A B} (m : M A) (k : A -> M B) h t1 b :
  m h = (t1, RaiseBase b) -> bind m k h = (t1, RaiseBase b).
Proof. intros Hm. unfold bind. now rewrite Hm. Qed.

Lemma bind_lift_return {A B} (a : A) (k : A -> M B) h :
  bind (lift (Return a)) k h = k a h.
Proof.
  unfold bind, lift. rewrite app_nil_r. now destruct (k a h).
Qed.

Lemma bind_lift_raise {A B} (e : exn) (k : A -> M B) h :
  bind (lift (Raise e)) k h = ([], Raise e).
Proof. reflexivity. Qed.

Lemma bind_ret {A B} (a : A) (k : A -> M B) h :
  bind (ret a) k h = k a h.
Proof. apply bind_lift_return. Qed.

Lemma bind_emit {B} (e : effect) (k : unit -> M B) h :
  bind (emit e) k h
  = (e :: fst (k tt (h ++ [e])), snd (k tt (h ++ [e]))).
Proof. unfold bind, emit. now destruct (k tt (h ++ [e])). Qed.

Lemma evaluated_app t1 t2 :
  evaluated (t1 ++ t2) = evaluated t1 ++ evaluated t2.
Proof. apply flat_map_app. Qed.

Lemma notifications_app t1 t2 :
  notifications (t1 ++ t2) = notifications t1 ++ notifications t2.
Proof. apply flat_map_app. Qed.

Lemma fetches_app t1 t2 : fetches (t1 ++ t2) = fetches t1 ++ fetches t2.
Proof. apply flat_map_app. Qed.

Lemma count_app p t1 t2 : count p (t1 ++ t2) = count p t1 + count p t2.
Proof. unfold count. now rewrite filter_app, length_app. Qed.

Section Bounds.
Variable p : effect -> bool.

Lemma at_most_weaken {A} n n' (m : M A) :
  at_most p n m -> n <= n' -> at_most p n' m.
Proof. intros H Hle h. specialize (H h). lia. Qed.

Lemma at_most_ret {A} (a : A) : at_most p 0 (ret a).
Proof. intros h. apply Nat.le_refl. Qed.

Lemma at_most_raise {A} e : at_most p 0 (@raise A e).
Proof. intros h. apply Nat.le_refl. Qed.

Lemma at_most_lift {A} (r : result A) : at_most p 0 (lift r).
Proof. intros h. apply Nat.le_refl. Qed.

Lemma at_most_emit e : at_most p (count p [e]) (emit e).
Proof. intros h. apply Nat.le_refl. Qed.

Lemma at_most_bind {A B} n n' (m : M A) (k : A -> M B) :
  at_most p n m -> (forall a, at_most p n' (k a)) ->
  at_most p (n + n') (bind m k).
Proof.
  intros Hm Hk h. unfold bind.
  specialize (Hm h). destruct (m h) as [t1 [a|e|b]]; simpl in *.
  - specialize (Hk a (h ++ t1)).
    destruct (k a (h ++ t1)) as [t2 r]. simpl in *.
    rewrite count_app. lia.
  - lia.
  - lia.
Qed.

Lemma at_most_try {A} n n' (m : M A) (handler : exn -> M A) :
  at_most p n m -> (forall e, at_most p n' (handler e)) ->
  at_most p (n + n') (try_except m handler).
Proof.
  intros Hm Hk h. unfold try_except.
  specialize (Hm h). destruct (m h) as [t1 [a|e|b]]; simpl in *.
  - lia.
  - specialize (Hk e (h ++ t1)).
    destruct (handler e (h ++ t1)) as [t2 r]. simpl in *.
    rewrite count_app. lia.
  - lia.
Qed.

Lemma at_most_for_each {A} n (l : list A) (body : A -> M unit) :
  (forall a, at_most p n (body a)) ->
  at_most p (length l * n) (for_each l body).
Proof.
  intros Hb. induction l as [|a l IH]; simpl.
  - apply at_most_ret.
  - apply at_most_bind; [apply Hb | intros _; exact IH].
Qed.

Lemma at_most_when n b (m : M unit) :
  at_most p n m -> at_most p n (when b m).
Proof.
  intros H. destruct b; simpl; [exact H|].
  apply (at_most_weaken 0 n _ (at_most_ret tt)). lia.
Qed.

End Bounds.

End RunFacts.

(* ================================================================== *)
(** * The rule evaluator *)

Module RuleFacts.
Import RunFacts.

Section Rules.
Variable W : World.
Variable flat : flat_event.

Lemma matches_true rule :
  matches W flat rule = true <-> py_eval W rule flat = Return (JBool true).
Proof.
  unfold matches. destruct (py_eval W rule flat) as [v|e|b].
  - destruct v as [| [|] | | | |]; simpl; split; congruence.
  - split; discriminate.
  - split; discriminate.
Qed.

Lemma no_match_forall rule_list :
  existsb (matches W flat) rule_list = false
  <-> Forall (fun rule => py_eval W rule flat <> Return (JBool true))
        rule_list.
Proof.
  induction rule_list as [|rule rest IH]; simpl.
  - split; [constructor | reflexivity].
  - rewrite orb_false_iff, IH. split.
    + intros [Hm Hrest]. constructor; [|exact Hrest].
      intros E. apply matches_true in E. congruence.
    + intros H. inversion H as [|? ? Hm Hrest]; subst. split; [|exact Hrest].
      destruct (matches W flat rule) eqn:E; [|reflexivity].
      apply matches_true in E. contradiction.
Qed.

Lemma through_no_match rule_list :
  existsb (matches W flat) rule_list = false ->
  through_first_match W flat rule_list = rule_list.
Proof.
  induction rule_list as [|rule rest IH]; simpl; [reflexivity|].
  intros H. apply orb_false_iff in H as [Hm Hrest].
  now rewrite Hm, IH.
Qed.

Lemma through_app_no_match pre rest :
  existsb (matches W flat) pre = false ->
  through_first_match W flat (pre ++ rest)
  = pre ++ through_first_match W flat rest.
Proof.
  induction pre as [|rule pre IH]; simpl; [reflexivity|].
  intros H. apply orb_false_iff in H as [Hm Hpre].
  now rewrite Hm, IH.
Qed.

Lemma through_app_match pre rest :
  existsb (matches W flat) pre = true ->
  through_first_match W flat (pre ++ rest)
  = through_first_match W flat pre.
Proof.
  induction pre as [|rule pre IH]; simpl; [discriminate|].
  destruct (matches W flat rule); simpl; [reflexivity|].
  intros H. now rewrite IH.
Qed.



Lemma raised_app l1 l2 :
  raised W flat (l1 ++ l2) = raised W flat l1 ++ raised W flat l2.
Proof.
  induction l1 as [|rule l1 IH]; simpl; [reflexivity|].
  destruct (py_eval W rule flat); simpl; now rewrite IH.
Qed.

Lemma raised_nothing rule_list :
  Forall (fun rule => exists v, py_eval W rule flat = Return v) rule_list ->
  raised W flat rule_list = [].
Proof.
  induction 1 as [|rule rest [v Hv] _ IH]; simpl; [reflexivity|].
  now rewrite Hv.
Qed.

Lemma bind_eval {B} rule (k : result json -> M B) h :
  bind (eval W rule flat) k h
  = (EEval rule :: fst (k (py_eval W rule flat) (h ++ [EEval rule])),
     snd (k (py_eval W rule flat) (h ++ [EEval rule]))).
Proof.
  exact (bind_return (eval W rule flat) k h [EEval rule]
           (py_eval W rule flat) eq_refl).
Qed.

(** One loop over a rule list (lines 143-150, 152-159). *)
Lemma for_rule_in_run answer rule_list :
  contained W flat (through_first_match W flat rule_list) ->
  forall collected h,
  exists t,
    for_rule_in W answer flat rule_list collected h
    = (t, Return
            (if existsb (matches W flat) rule_list
             then Returned
                    {| should_be_processed := answer;
                       errors :=
                         collected
                         ++ raised W flat
                              (through_first_match W flat rule_list) |}
             else Fell_through (collected ++ raised W flat rule_list)))
    /\ evaluated t = through_first_match W flat rule_list
    /\ notifications t = []
    /\ fetches t = [].
Proof.
  induction rule_list as [|rule rest IH]; intros Hc collected h.
  - exists []. simpl. unfold ret. now rewrite app_nil_r.
  - cbn [through_first_match] in Hc.
    cbn [for_rule_in existsb through_first_match].
    rewrite bind_eval.
    assert (Hrest : matches W flat rule = false ->
                    contained W flat (through_first_match W flat rest)
                    /\ forall b, py_eval W rule flat <> RaiseBase b).
    { intros Hm. rewrite Hm in Hc.
      inversion Hc as [|? ? Hrule Hrest]; subst. now split. }
    destruct (py_eval W rule flat) as [v|e|b] eqn:E.
    3:{ assert (Hm : matches W flat rule = false)
          by (unfold matches; now rewrite E).
        destruct (Hrest Hm) as [_ Hrule]. now destruct (Hrule b). }
    + destruct (Py.is_True v) eqn:Hv.
      * assert (Hm : matches W flat rule = true)
          by (unfold matches; now rewrite E).
        rewrite Hm. unfold log. rewrite bind_emit. unfold ret.
        eexists. split.
        { simpl. rewrite E, app_nil_r. reflexivity. }
        repeat split.
      * assert (Hm : matches W flat rule = false)
          by (unfold matches; now rewrite E).
        rewrite Hm. destruct (Hrest Hm) as [Hc' _].
        destruct (IH Hc' collected (h ++ [EEval rule]))
          as (t & Ht & He & Hn & Hf).
        rewrite Ht. exists (EEval rule :: t). simpl.
        rewrite E, He, Hn, Hf. repeat split.
    + assert (Hm : matches W flat rule = false)
        by (unfold matches; now rewrite E).
      rewrite Hm. destruct (Hrest Hm) as [Hc' _].
      unfold log. rewrite bind_emit.
      destruct (IH Hc' (collected ++ [{| error := e; rule := rule |}])
                  ((h ++ [EEval rule]) ++ [ELog ERROR "Event parsing failed"]))
        as (t & Ht & He & Hn & Hf).
      rewrite Ht. simpl.
      exists (EEval rule :: ELog ERROR "Event parsing failed" :: t). simpl.
      rewrite E, He, Hn, Hf, <- !app_assoc. simpl. repeat split.
Qed.

Lemma contained_app l1 l2 :
  contained W flat (l1 ++ l2)
  <-> contained W flat l1 /\ contained W flat l2.
Proof. apply Forall_app. Qed.

Lemma contained_through rule_list :
  contained W flat rule_list ->
  contained W flat (through_first_match W flat rule_list).
Proof.
  induction 1 as [|rule rest Hrule _ IH]; cbn [through_first_match].
  - constructor.
  - destruct (matches W flat rule); repeat constructor; assumption.
Qed.

(** A loop left by a rule that raises what [except Exception] does not
    catch. *)
Lemma for_rule_in_leaves answer pre rule post b :
  contained W flat pre ->
  existsb (matches W flat) pre = false ->
  py_eval W rule flat = RaiseBase b ->
  forall collected h,
  exists t,
    for_rule_in W answer flat (pre ++ rule :: post) collected h
    = (t, RaiseBase b)
    /\ evaluated t = pre ++ [rule]
    /\ notifications t = []
    /\ fetches t = [].
Proof.
  intros Hc Hpre Hb.
  induction pre as [|r pre IH]; intros collected h.
  - cbn [app for_rule_in]. rewrite bind_eval, Hb.
    exists [EEval rule]. repeat split.
  - inversion Hc as [|? ? Hr Hrest]; subst.
    cbn [existsb] in Hpre. apply orb_false_iff in Hpre as [Hm Hpre].
    specialize (IH Hrest Hpre).
    cbn [app for_rule_in]. rewrite bind_eval.
    unfold matches in Hm.
    destruct (py_eval W r flat) as [v|e|b'] eqn:E;
      [| |now destruct (Hr b')].
    + rewrite Hm.
      destruct (IH collected (h ++ [EEval r])) as (t & Ht & He & Hn & Hf).
      rewrite Ht. exists (EEval r :: t). simpl.
      rewrite He, Hn, Hf. repeat split.
    + unfold log. rewrite bind_emit.
      destruct (IH (collected ++ [{| error := e; rule := r |}])
                  ((h ++ [EEval r]) ++ [ELog ERROR "Event parsing failed"]))
        as (t & Ht & He & Hn & Hf).
      rewrite Ht.
      exists (EEval r :: ELog ERROR "Event parsing failed" :: t). simpl.
      rewrite He, Hn, Hf. repeat split.
Qed.

End Rules.
End RuleFacts.

Module EvaluatorFacts.
Import RunFacts RuleFacts.

Section Evaluator.
Variable W : World.

(** Lines 131-162 on an event that has the two keys read at lines
    137-138. *)
Lemma should_message_be_processed_run event rules ignore_rules user name h :
  Py.getitem event "userIdentity" = Return user ->
  Py.getitem event "eventName" = Return name ->
  contained W (flatten_json event)
    (through_first_match W (flatten_json event) (ignore_rules ++ rules)) ->
  exists t,
    should_message_be_processed W event rules ignore_rules h
    = (t, Return (verdict W (flatten_json event) rules ignore_rules))
    /\ evaluated t
       = through_first_match W (flatten_json event) (ignore_rules ++ rules)
    /\ notifications t = []
    /\ fetches t = [].
Proof.
  intros Hu Hn Hc. unfold should_message_be_processed, verdict.
  rewrite Hu, bind_lift_return, Hn, bind_lift_return.
  unfold log. rewrite !bind_emit. cbn [fst snd].
  set (flat := flatten_json event) in *.
  set (h1 := (h ++ [ELog DEBUG "Rules"]) ++ [ELog DEBUG "Flattened event"]).
  assert (Hci : contained W flat (through_first_match W flat ignore_rules)
                /\ (existsb (matches W flat) ignore_rules = false ->
                    contained W flat (through_first_match W flat rules))).
  { destruct (existsb (matches W flat) ignore_rules) eqn:Hig.
    - rewrite through_app_match in Hc by exact Hig. split; [exact Hc|].
      discriminate.
    - rewrite through_app_no_match in Hc by exact Hig.
      apply contained_app in Hc as [Hi Hr].
      rewrite (through_no_match W flat ignore_rules Hig). now split. }
  destruct Hci as [Hci Hcr].
  destruct (for_rule_in_run W flat false ignore_rules Hci [] h1)
    as (t1 & Ht1 & He1 & Hn1 & Hf1).
  rewrite (bind_return _ _ _ _ _ Ht1).
  destruct (existsb (matches W flat) ignore_rules) eqn:Hig.
  - unfold ret. cbn [fst snd andb negb]. rewrite app_nil_r.
    rewrite through_app_match by exact Hig.
    eexists. split; [reflexivity|].
    simpl. rewrite He1, Hn1, Hf1. repeat split.
  - destruct (for_rule_in_run W flat true rules (Hcr eq_refl)
                ([] ++ raised W flat ignore_rules) (h1 ++ t1))
      as (t2 & Ht2 & He2 & Hn2 & Hf2).
    rewrite (bind_return _ _ _ _ _ Ht2).
    rewrite through_app_no_match by exact Hig.
    destruct (existsb (matches W flat) rules) eqn:Hm.
    + unfold ret. cbn [fst snd andb negb]. rewrite app_nil_r.
      eexists. split; [rewrite raised_app; reflexivity|].
      simpl. rewrite !evaluated_app, !notifications_app, !fetches_app.
      rewrite He1, He2, Hn1, Hn2, Hf1, Hf2.
      rewrite (through_no_match W flat ignore_rules Hig). repeat split.
    + rewrite bind_emit. unfold ret. cbn [fst snd andb negb].
      eexists. split.
      { rewrite (through_no_match W flat rules Hm), raised_app.
        reflexivity. }
      simpl. rewrite !evaluated_app, !notifications_app, !fetches_app.
      rewrite He1, He2, Hn1, Hn2, Hf1, Hf2. simpl.
      rewrite (through_no_match W flat ignore_rules Hig), !app_nil_r.
      repeat split.
Qed.

(** Lines 131-162 when a rule raises what lines 148 and 157 do not
    catch: nothing after the [eval] of that rule is run. *)
Lemma should_message_be_processed_leaves
    event rules ignore_rules user name pre rule post b h :
  Py.getitem event "userIdentity" = Return user ->
  Py.getitem event "eventName" = Return name ->
  ignore_rules ++ rules = pre ++ rule :: post ->
  contained W (flatten_json event) pre ->
  existsb (matches W (flatten_json event)) pre = false ->
  py_eval W rule (flatten_json event) = RaiseBase b ->
  exists t,
    should_message_be_processed W event rules ignore_rules h
    = (t, RaiseBase b)
    /\ evaluated t = pre ++ [rule]
    /\ notifications t = []
    /\ fetches t = [].
Proof.
  intros Hu Hn Hsplit Hc Hpre Hb. unfold should_message_be_processed.
  rewrite Hu, bind_lift_return, Hn, bind_lift_return.
  unfold log. rewrite !bind_emit. cbn [fst snd].
  set (flat := flatten_json event) in *.
  set (h1 := (h ++ [ELog DEBUG "Rules"]) ++ [ELog DEBUG "Flattened event"]).
  apply app_eq_app in Hsplit as [l [[Hi Hr]|[Hp Hr]]].
  - destruct l as [|r l].
    + (* the leaving rule is the first match-rule *)
      rewrite app_nil_r in Hi. cbn [app] in Hr. subst ignore_rules rules.
      assert (Hci : contained W flat (through_first_match W flat pre))
        by now rewrite (through_no_match W flat pre Hpre).
      destruct (for_rule_in_run W flat false pre Hci [] h1)
        as (t1 & Ht1 & He1 & Hn1 & Hf1).
      rewrite (bind_return _ _ _ _ _ Ht1). rewrite Hpre.
      destruct (for_rule_in_leaves W flat true [] rule post b
                  (Forall_nil _) eq_refl Hb
                  ([] ++ raised W flat pre) (h1 ++ t1))
        as (t2 & Ht2 & He2 & Hn2 & Hf2).
      cbn [app] in Ht2.
      rewrite (bind_raise_base _ _ _ _ _ Ht2).
      eexists. split; [reflexivity|]. simpl.
      rewrite !evaluated_app, !notifications_app, !fetches_app.
      rewrite He1, He2, Hn1, Hn2, Hf1, Hf2.
      rewrite (through_no_match W flat pre Hpre). repeat split.
    + (* the leaving rule is an ignore-rule *)
      cbn [app] in Hr. injection Hr as <- _. subst ignore_rules.
      destruct (for_rule_in_leaves W flat false pre rule l b Hc Hpre Hb
                  [] h1) as (t1 & Ht1 & He1 & Hn1 & Hf1).
      rewrite (bind_raise_base _ _ _ _ _ Ht1).
      eexists. split; [reflexivity|]. simpl.
      rewrite He1, Hn1, Hf1. repeat split.
  - (* the leaving rule is a match-rule *)
    subst pre rules.
    apply contained_app in Hc as [Hci Hcl].
    rewrite existsb_app in Hpre. apply orb_false_iff in Hpre as [Hig Hl].
    assert (Hci' : contained W flat (through_first_match W flat ignore_rules))
      by now rewrite (through_no_match W flat ignore_rules Hig).
    destruct (for_rule_in_run W flat false ignore_rules Hci' [] h1)
      as (t1 & Ht1 & He1 & Hn1 & Hf1).
    rewrite (bind_return _ _ _ _ _ Ht1). rewrite Hig.
    destruct (for_rule_in_leaves W flat true l rule post b Hcl Hl Hb
                ([] ++ raised W flat ignore_rules) (h1 ++ t1))
      as (t2 & Ht2 & He2 & Hn2 & Hf2).
    rewrite (bind_raise_base _ _ _ _ _ Ht2).
    eexists. split; [reflexivity|]. simpl.
    rewrite !evaluated_app, !notifications_app, !fetches_app.
    rewrite He1, He2, Hn1, Hn2, Hf1, Hf2.
    rewrite (through_no_match W flat ignore_rules Hig), <- app_assoc.
    repeat split.
Qed.

(** Lines 137 and 138 raise before anything else happens. *)
Lemma should_message_be_processed_no_user event rules ignore_rules e h :
  Py.getitem event "userIdentity" = Raise e ->
  should_message_be_processed W event rules ignore_rules h = ([], Raise e).
Proof.
  intros Hu. unfold should_message_be_processed. now rewrite Hu.
Qed.

Lemma should_message_be_processed_no_name event rules ignore_rules user e h :
  Py.getitem event "userIdentity" = Return user ->
  Py.getitem event "eventName" = Raise e ->
  should_message_be_processed W event rules ignore_rules h = ([], Raise e).
Proof.
  intros Hu Hn. unfold should_message_be_processed.
  now rewrite Hu, bind_lift_return, Hn.
Qed.

End Evaluator.
End EvaluatorFacts.



(** C4.  On an event that carries the two keys read at lines 137-138:
    when the rules evaluated (those up to the first that evaluates to
    [True]) return a value or raise an instance of [Exception],
    [should_message_be_processed] returns; the error list it returns
    holds, in evaluation order, one record (exception, expression text)
    per evaluated rule that raised; after a rule that raises, evaluation
    goes on with the rules that follow it (up to the first that evaluates
    to [True]); and when every rule evaluates to a value other than
    [True], the answer is "do not process" with an empty error list.
    A rule that raises what is no instance of [Exception] is not caught
    at lines 148 and 157: the function leaves with that exception right
    after evaluating the rule, with no rule evaluated after it and no
    result. *)
Theorem rule_evaluation_errors_are_collected :
  forall (W : World) (event : json) (rules ignore_rules : list string)
         (user name : json) (h : history),
    Py.getitem event "userIdentity" = Return user ->
    Py.getitem event "eventName" = Return name ->
    let flat := flatten_json event in
    (contained W flat (through_first_match W flat (ignore_rules ++ rules)) ->
     exists t result,
       should_message_be_processed W event rules ignore_rules h
       = (t, Return result)
       /\ errors result = raised W flat (evaluated t)
       /\ (forall pre rule post e,
             ignore_rules ++ rules = pre ++ rule :: post ->
             Forall (fun r => py_eval W r flat <> Return (JBool true)) pre ->
             py_eval W rule flat = Raise e ->
             In {| error := e; rule := rule |} (errors result)
             /\ evaluated t = pre ++ rule :: through_first_match W flat post)
       /\ (Forall (fun r => exists v, py_eval W r flat = Return v
                                      /\ v <> JBool true)
             (ignore_rules ++ rules) ->
           result = {| should_be_processed := false; errors := [] |}))
    /\ (forall pre rule post b,
          ignore_rules ++ rules = pre ++ rule :: post ->
          contained W flat pre ->
          Forall (fun r => py_eval W r flat <> Return (JBool true)) pre ->
          py_eval W rule flat = RaiseBase b ->
          exists t,
            should_message_be_processed W event rules ignore_rules h
            = (t, RaiseBase b)
            /\ evaluated t = pre ++ [rule]).
Proof.
  intros W event rules ignore_rules user name h Hu Hn flat. split.
  - intros Hc.
    destruct (EvaluatorFacts.should_message_be_processed_run
                W event rules ignore_rules user name h Hu Hn Hc)
      as (t & Hrun & He & _).
    fold flat in Hrun, He.
    exists t, (verdict W flat rules ignore_rules).
    split; [exact Hrun|]. rewrite He. unfold verdict. cbn [errors].
    split; [reflexivity|]. split.
    + intros pre rule post e -> Hpre Hrule.
      apply RuleFacts.no_match_forall in Hpre.
      assert (Hm : matches W flat rule = false)
        by (unfold matches; now rewrite Hrule).
      rewrite (RuleFacts.through_app_no_match W flat pre _ Hpre).
      cbn [through_first_match]. rewrite Hm. split; [|reflexivity].
      rewrite RuleFacts.raised_app. apply in_or_app. right.
      cbn [raised]. rewrite Hrule. now left.
    + intros Hall.
      assert (Hno : existsb (matches W flat) (ignore_rules ++ rules) = false).
      { apply RuleFacts.no_match_forall.
        eapply Forall_impl; [|exact Hall].
        intros r (v & Hv & Hne) E. rewrite Hv in E. congruence. }
      rewrite (RuleFacts.through_no_match W flat _ Hno).
      rewrite RuleFacts.raised_nothing.
      * rewrite existsb_app in Hno. apply orb_false_iff in Hno as [-> ->].
        reflexivity.
      * eapply Forall_impl; [|exact Hall]. intros r (v & Hv & _). now exists v.
  - intros pre rule post b Hsplit Hc Hpre Hb.
    apply RuleFacts.no_match_forall in Hpre.
    destruct (EvaluatorFacts.should_message_be_processed_leaves
                W event rules ignore_rules user name pre rule post b h
                Hu Hn Hsplit Hc Hpre Hb) as (t & Hrun & He & _).
    now exists t.
Qed.

Lemma errors_are_collected_witness :
  (exists t result,
     should_message_be_processed quiet_world service_event
       (rules reporting_rules) ["1"] []
     = (t, Return result)
     /\ In {| error := KeyError "errorCode";
              rule := "event['errorCode'] == 'AccessDenied'" |}
          (errors result)
     /\ evaluated t
        = ["1"; "event['errorCode'] == 'AccessDenied'";
           "event["; "event['eventName'] == 'ConsoleLogin'"])
  /\ (exists t,
        should_message_be_processed quiet_world service_event
          (rules exiting_rules) ["1"] []
        = (t, RaiseBase (SystemExit 3))
        /\ evaluated t = ["1"; "__import__('sys').exit(3)"]).
Proof.
  split.
  - assert (Hc : contained quiet_world (flatten_json service_event)
                   (through_first_match quiet_world
                      (flatten_json service_event)
                      (["1"] ++ rules reporting_rules))).
    { repeat (apply Forall_cons; [intros b; vm_compute; discriminate|]).
      apply Forall_nil. }
    destruct (rule_evaluation_errors_are_collected
                quiet_world service_event (rules reporting_rules)
                ["1"] _ _ [] eq_refl eq_refl)
      as [Hcaught _].
    destruct (Hcaught Hc) as (t & result & Hrun & _ & Hraise & _).
    exists t, result. split; [exact Hrun|].
    apply (Hraise ["1"] "event['errorCode'] == 'AccessDenied'"
             ["event["; "event['eventName'] == 'ConsoleLogin'"]
             (KeyError "errorCode")).
    + reflexivity.
    + constructor; [|constructor]. simpl. discriminate.
    + reflexivity.
  - destruct (rule_evaluation_errors_are_collected
                quiet_world service_event (rules exiting_rules)
                ["1"] _ _ [] eq_refl eq_refl)
      as [_ Hleaves].
    apply (Hleaves ["1"] "__import__('sys').exit(3)" ["True"] (SystemExit 3)).
    + reflexivity.
    + apply Forall_cons; [intros b; vm_compute; discriminate|].
      apply Forall_nil.
    + constructor; [|constructor]. simpl. discriminate.
    + reflexivity.
Defined.

(** C4, the case the claim leaves out: a rule text that ends the
    interpreter raises [SystemExit], which lines 148 and 157 do not catch;
    the call leaves with it and the match-rule after it is never
    evaluated. *)
Lemma rule_raise_can_leave_should_message_be_processed :
  should_message_be_processed quiet_world console_login
    ["__import__('sys').exit(3)"; "True"] [] []
  = ([ELog DEBUG "Rules"; ELog DEBUG "Flattened event";
      EEval "__import__('sys').exit(3)"],
     RaiseBase (SystemExit 3)).
Proof. reflexivity. Qed.

(* ================================================================== *)
(** * The handler: what can be posted *)

Module BoundFacts.
Import RunFacts.

Section Bounds.
Variable W : World.
Variable cfg : Config.
Variable p : effect -> bool.

(** [p] counts notifications only. *)
Hypothesis posts_only : forall e, is_post e = false -> p e = false.

Lemma quiet_emit e : is_post e = false -> at_most p 0 (emit e).
Proof.
  intros He h. unfold count. simpl. rewrite (posts_only e He).
  apply Nat.le_refl.
Qed.

Lemma quiet_log lvl what : at_most p 0 (log lvl what).
Proof. now apply quiet_emit. Qed.

Lemma quiet_eval rule flat : at_most p 0 (eval W rule flat).
Proof.
  unfold eval. apply (at_most_bind p 0 0).
  - now apply quiet_emit.
  - intros _. apply at_most_ret.
Qed.

Lemma quiet_for_rule_in answer flat rule_list :
  forall collected,
    at_most p 0 (for_rule_in W answer flat rule_list collected).
Proof.
  induction rule_list as [|rule rest IH]; intros collected; simpl.
  - apply at_most_ret.
  - apply (at_most_bind p 0 0); [apply quiet_eval|].
    intros [v|e|b].
    + destruct (Py.is_True v); [|apply IH].
      apply (at_most_bind p 0 0); [apply quiet_log|].
      intros _. apply at_most_ret.
    + apply (at_most_bind p 0 0); [apply quiet_log|].
      intros _. apply IH.
    + apply at_most_lift.
Qed.

Lemma quiet_should_message_be_processed event rules ignore_rules :
  at_most p 0 (should_message_be_processed W event rules ignore_rules).
Proof.
  unfold should_message_be_processed.
  apply (at_most_bind p 0 0); [apply at_most_lift | intros _].
  apply (at_most_bind p 0 0); [apply at_most_lift | intros _].
  apply (at_most_bind p 0 0); [apply quiet_log | intros _].
  apply (at_most_bind p 0 0); [apply quiet_log | intros _].
  apply (at_most_bind p 0 0); [apply quiet_for_rule_in|].
  intros [r|collected]; [apply at_most_ret|].
  apply (at_most_bind p 0 0); [apply quiet_for_rule_in|].
  intros [r|collected']; [apply at_most_ret|].
  apply (at_most_bind p 0 0); [apply quiet_log | intros _].
  apply at_most_ret.
Qed.

Lemma quiet_get_object bucket key : at_most p 0 (get_object W bucket key).
Proof.
  intros h. unfold get_object, count. simpl.
  rewrite posts_only by reflexivity. apply Nat.le_refl.
Qed.

Lemma quiet_get_cloudtrail_log_records record :
  at_most p 0 (get_cloudtrail_log_records W record).
Proof.
  unfold get_cloudtrail_log_records.
  apply (at_most_bind p 0 0); [apply at_most_lift | intros has_s3].
  destruct (negb has_s3); [apply at_most_raise|].
  apply (at_most_bind p 0 0); [apply at_most_lift | intros bucket].
  apply (at_most_bind p 0 0); [apply at_most_lift | intros quoted].
  apply (at_most_bind p 0 0); [apply at_most_lift | intros key].
  destruct (PyStr.contains "Digest" key); [apply at_most_ret|].
  apply (at_most_try p 0 0).
  - apply (at_most_bind p 0 0); [apply quiet_get_object | intros content].
    apply (at_most_bind p 0 0); [apply at_most_lift | intros records].
    apply at_most_ret.
  - intros e. apply (at_most_bind p 0 0); [apply quiet_log | intros _].
    apply at_most_raise.
Qed.

Lemma at_most_post m account_id :
  at_most p (count p [EPost m account_id]) (post_message W m account_id).
Proof. intros h. apply Nat.le_refl. Qed.

Lemma at_most_for_each_none {A} (l : list A) (body : A -> M unit) :
  (forall a, at_most p 0 (body a)) -> at_most p 0 (for_each l body).
Proof.
  intros Hb. apply (at_most_weaken p (length l * 0) 0).
  - now apply at_most_for_each.
  - lia.
Qed.

(** Lines 165-193: at most one notification about the event itself,
    and nothing else unless errors are reported and [p] counts the
    reports. *)
Lemma at_most_handle_event n event object_key rules ignore_rules :
  rule_evaluation_errors_to_slack cfg = false
  \/ (forall e k r a,
        p (EPost (message_for_rule_evaluation_error_notification e k r) a)
        = false) ->
  (forall ev k a a',
      count p [EPost (event_to_slack_message ev k a) a'] <= n) ->
  at_most p n (handle_event W cfg event object_key rules ignore_rules).
Proof.
  intros Hreports Hevent. unfold handle_event.
  apply (at_most_bind p 0 n);
    [apply quiet_should_message_be_processed | intros result].
  apply (at_most_bind p 0 n); [apply at_most_lift | intros account_id].
  apply (at_most_bind p 0 n).
  { destruct Hreports as [-> | Hquiet]; [apply at_most_ret|].
    apply at_most_when, at_most_for_each_none. intros failed.
    apply (at_most_weaken p _ 0 _ (at_most_post _ _)).
    unfold count. simpl. now rewrite Hquiet. }
  intros _.
  destruct (negb (should_be_processed result)).
  { apply (at_most_weaken p 0 n _ (at_most_ret p tt)). lia. }
  apply (at_most_bind p 0 n); [apply at_most_lift | intros denied].
  apply (at_most_bind p 0 n);
    [apply at_most_when, quiet_log | intros _].
  apply (at_most_weaken p _ n _ (at_most_post _ _)). apply Hevent.
Qed.

Lemma at_most_handle_removed_object_record n record :
  (forall ev k a a',
      count p [EPost (event_to_slack_message ev k a) a'] <= n) ->
  at_most p n (handle_removed_object_record W record).
Proof.
  intros Hevent. unfold handle_removed_object_record.
  apply (at_most_bind p 0 n); [apply quiet_log | intros _].
  apply (at_most_bind p 0 n); [apply at_most_lift | intros account_id].
  apply (at_most_bind p 0 n); [apply at_most_lift | intros source_file].
  apply (at_most_weaken p _ n _ (at_most_post _ _)). apply Hevent.
Qed.

(** Lines 43-59 post nothing that [p] does not count among the event
    and rule-error notifications. *)
Lemma quiet_process_records batch :
  (forall e k r a,
      p (EPost (message_for_rule_evaluation_error_notification e k r) a)
      = false) ->
  (forall ev k a a',
      p (EPost (event_to_slack_message ev k a) a') = false) ->
  at_most p 0 (process_records W cfg batch).
Proof.
  intros Hreports Hevent.
  assert (Hev : forall ev k a a',
             count p [EPost (event_to_slack_message ev k a) a'] <= 0).
  { intros. unfold count. simpl. now rewrite Hevent. }
  unfold process_records.
  apply (at_most_bind p 0 0); [apply at_most_lift | intros records].
  apply (at_most_bind p 0 0); [apply at_most_lift | intros items].
  apply at_most_for_each_none. intros record. unfold dispatch_record.
  apply (at_most_bind p 0 0); [apply at_most_lift | intros event_name].
  apply (at_most_bind p 0 0); [apply at_most_lift | intros quoted].
  apply (at_most_bind p 0 0); [apply at_most_lift | intros digest].
  apply (at_most_bind p 0 0); [apply at_most_when, quiet_log | intros _].
  apply (at_most_bind p 0 0); [apply at_most_lift | intros removed].
  destruct removed;
    [now apply at_most_handle_removed_object_record|].
  apply (at_most_bind p 0 0); [apply at_most_lift | intros created].
  destruct created; [|apply at_most_ret].
  unfold handle_created_object_record.
  apply (at_most_bind p 0 0);
    [apply quiet_get_cloudtrail_log_records | intros [batch'|]];
    [|apply at_most_ret].
  apply (at_most_bind p 0 0); [apply at_most_lift | intros sub_events].
  apply at_most_for_each_none. intros ev.
  apply at_most_handle_event; [now right | exact Hev].
Qed.

End Bounds.
End BoundFacts.

(* ================================================================== *)
(** * The handler: what is posted when the notifier works *)

Module HandlerFacts.
Import RunFacts.

Lemma bind_run {A B} (m : M A) (k : A -> M B) h t1 a t2 r :
  m h = (t1, Return a) -> k a (h ++ t1) = (t2, r) ->
  bind m k h = (t1 ++ t2, r).
Proof.
  intros Hm Hk. rewrite (bind_return m k h t1 a Hm). now rewrite Hk.
Qed.

Lemma for_each_app_raise {A} (body : A -> M unit) pre a post h t t' e :
  for_each pre body h = (t, Return tt) ->
  body a (h ++ t) = (t', Raise e) ->
  for_each (pre ++ a :: post) body h = (t ++ t', Raise e).
Proof.
  revert h t. induction pre as [|x pre IH]; intros h t Hpre Ha; simpl in *.
  - unfold ret in Hpre. injection Hpre as <-.
    rewrite app_nil_r in Ha. now rewrite (bind_raise _ _ _ _ _ Ha).
  - unfold bind in Hpre |- *.
    destruct (body x h) as [t1 [[]|e1|b1]]; [|discriminate|discriminate].
    destruct (for_each pre body (h ++ t1)) as [t2 r2] eqn:Hrest.
    injection Hpre as <- ->.
    rewrite app_assoc in Ha.
    rewrite (IH (h ++ t1) t2 Hrest Ha). now rewrite app_assoc.
Qed.

Section Handler.
Variable W : World.
Variable cfg : Config.
Hypothesis notifier_works : reliable W.

Lemma post_message_returns m account_id h :
  post_message W m account_id h = ([EPost m account_id], Return tt).
Proof. unfold post_message. now rewrite notifier_works. Qed.

(** Lines 175-183 when every call returns. *)
Lemma reports_return object_key account_id failures :
  forall h,
    for_each failures (fun failed =>
      post_message W
        (message_for_rule_evaluation_error_notification
           (error failed) object_key (rule failed))
        account_id) h
    = (map (fun failed =>
              EPost (fst (report_of object_key account_id failed))
                account_id) failures,
       Return tt).
Proof.
  induction failures as [|failed rest IH]; intros h; [reflexivity|].
  cbn [for_each map].
  apply (bind_run _ _ h [_] tt); [apply post_message_returns | apply IH].
Qed.

Lemma notifications_reports object_key account_id failures :
  notifications
    (map (fun failed =>
            EPost (fst (report_of object_key account_id failed))
              account_id) failures)
  = map (report_of object_key account_id) failures.
Proof.
  unfold notifications.
  induction failures as [|failed rest IH]; simpl; [reflexivity|].
  f_equal; exact IH.
Qed.

Lemma evaluated_reports object_key account_id failures :
  evaluated
    (map (fun failed =>
            EPost (fst (report_of object_key account_id failed))
              account_id) failures)
  = [].
Proof. induction failures as [|failed rest IH]; simpl; auto. Qed.

(** Lines 165-193 on a well-shaped sub-event. *)
Lemma handle_event_returns event object_key rules ignore_rules h :
  well_shaped event ->
  rules_contained W rules ignore_rules event ->
  exists t,
    handle_event W cfg event object_key rules ignore_rules h
    = (t, Return tt)
    /\ notifications t
       = expected_notifications W cfg object_key rules ignore_rules event
    /\ evaluated t
       = through_first_match W (flatten_json event)
           (ignore_rules ++ rules).
Proof.
  intros ((user & Hu) & (name & Hn) & (account_id & Ha) & (denied & Hd)) Hc.
  destruct (EvaluatorFacts.should_message_be_processed_run
              W event rules ignore_rules user name h Hu Hn Hc)
    as (t0 & Ht0 & He0 & Hn0 & _).
  unfold handle_event, expected_notifications. rewrite Ha.
  set (result := verdict W (flatten_json event) rules ignore_rules) in *.
  destruct (rule_evaluation_errors_to_slack cfg) eqn:Htoggle;
    destruct (should_be_processed result) eqn:Hspb;
    destruct denied;
    (eexists; split;
     [ eapply bind_run; [exact Ht0|];
       rewrite bind_lift_return;
       eapply bind_run;
       [ first [ apply reports_return | reflexivity ] |];
       rewrite Hspb; cbn [negb];
       first
         [ reflexivity
         | rewrite Hd, bind_lift_return;
           eapply bind_run; [reflexivity|];
           apply post_message_returns ]
     | rewrite ?notifications_app, ?evaluated_app,
         ?notifications_reports, ?evaluated_reports, Hn0, He0;
       simpl; rewrite ?app_nil_r; split; reflexivity ]).
Qed.

(** Lines 89-95 on well-shaped sub-events. *)
Lemma for_each_event_returns object_key rules ignore_rules events :
  Forall well_shaped events ->
  Forall (rules_contained W rules ignore_rules) events ->
  forall h,
  exists t,
    for_each events (fun event =>
      handle_event W cfg event object_key rules ignore_rules) h
    = (t, Return tt)
    /\ notifications t
       = flat_map
           (expected_notifications W cfg object_key rules ignore_rules)
           events.
Proof.
  induction 1 as [|event rest Hev _ IH]; intros Hc h.
  - exists []. split; reflexivity.
  - inversion Hc as [|? ? Hc1 Hc2]; subst.
    destruct (handle_event_returns event object_key rules ignore_rules h
                Hev Hc1) as (t1 & Ht1 & Hn1 & _).
    destruct (IH Hc2 (h ++ t1)) as (t2 & Ht2 & Hn2).
    exists (t1 ++ t2). split.
    + cbn [for_each]. now apply (bind_run _ _ h t1 tt).
    + rewrite notifications_app, Hn1, Hn2. reflexivity.
Qed.

End Handler.
End HandlerFacts.

(* ================================================================== *)
(** * The dispatcher and the log retriever *)

Module DispatchFacts.
Import RunFacts HandlerFacts.

Lemma getpath_head record k ks v :
  Py.getpath record (k :: ks) = Return v ->
  Py.contains k record = Return true.
Proof.
  destruct record as [| | | | l | d]; simpl; try discriminate.
  unfold Dict.mem. destruct (Dict.get k d); [reflexivity | discriminate].
Qed.

(** Lines 98-109 on a digest key. *)
Lemma get_cloudtrail_log_records_digest W record bucket quoted h :
  Py.getpath record ["s3"; "bucket"; "name"] = Return bucket ->
  Py.getpath record ["s3"; "object"; "key"] = Return (JStr quoted) ->
  PyStr.contains "Digest" (unquote_plus W quoted) = true ->
  get_cloudtrail_log_records W record h = ([], Return None).
Proof.
  intros Hbucket Hkey Hdigest. unfold get_cloudtrail_log_records.
  rewrite (getpath_head _ _ _ _ Hbucket), bind_lift_return. cbn [negb].
  rewrite Hbucket, bind_lift_return, Hkey, bind_lift_return.
  cbn [unquote_key]. rewrite bind_lift_return, Hdigest. reflexivity.
Qed.

(** Lines 70-80. *)
Lemma handle_removed_object_record_run W record source_file account_id h :
  Py.getpath record ["s3"; "object"; "key"] = Return source_file ->
  account_id_of record = Return account_id ->
  exists r,
    handle_removed_object_record W record h
    = ([ELog INFO "s3:ObjectRemoved event";
        EPost (event_to_slack_message record source_file account_id)
          account_id], r).
Proof.
  intros Hkey Ha. unfold handle_removed_object_record, log.
  rewrite bind_emit, Ha, bind_lift_return, Hkey, bind_lift_return.
  unfold post_message. cbn [fst snd]. eexists. reflexivity.
Qed.

End DispatchFacts.

(** C5, as amended.  Whatever the batch, the records are processed inside
    one [try]; processing itself never posts a top-level error
    notification.  When processing completes, the handler returns 200.
    When processing raises an instance of [Exception], [e], the handler
    makes exactly one call posting the top-level error notification,
    carrying [e] and the batch, with no account id; when that call returns
    the failure is logged and the handler returns 200; when that call
    itself raises, its exception leaves [lambda_handler].  When processing
    raises what is no instance of [Exception] (a rule that exits, say),
    line 61 does not catch it: it leaves [lambda_handler] with no
    top-level notification, no log and no 200. *)
Theorem lambda_handler_reports_failure_once :
  forall (W : World) (cfg : Config) (batch : json) (h : history),
    let processing := process_records W cfg batch h in
    count is_slack_error_post (fst processing) = 0
    /\ match snd processing with
       | Return _ =>
           lambda_handler W cfg batch h = (fst processing, Return 200%Z)
       | Raise e =>
           let report := message_for_slack_error_notification e batch in
           match post_message_raises W (h ++ fst processing) report JNull with
           | None =>
               lambda_handler W cfg batch h
               = (fst processing
                  ++ [EPost report JNull;
                      ELog ERROR "Failed to process event"],
                  Return 200%Z)
           | Some e' =>
               lambda_handler W cfg batch h
               = (fst processing ++ [EPost report JNull], Raise e')
           end
       | RaiseBase b =>
           lambda_handler W cfg batch h = (fst processing, RaiseBase b)
       end.
Proof.
  intros W cfg batch h processing. split.
  - assert (H : at_most is_slack_error_post 0 (process_records W cfg batch)).
    { apply BoundFacts.quiet_process_records.
      - now intros [].
      - reflexivity.
      - reflexivity. }
    specialize (H h). fold processing in H. lia.
  - unfold lambda_handler, bind, try_except. fold processing.
    destruct processing as [t [[]|e|b]]; cbn [fst snd].
    + unfold ret. now rewrite app_nil_r.
    + unfold report_failure, bind, post_message, log, emit, ret.
      destruct (post_message_raises W (h ++ t)
                  (message_for_slack_error_notification e batch) JNull);
        cbn; now rewrite ?app_nil_r.
    + reflexivity.
Qed.

(** C5 as stated fails: with the notifier raising, a removal record makes
    the removal notification raise, the top-level error notification
    raises in turn, and [lambda_handler] does not return 200. *)
Lemma lambda_handler_can_raise :
  lambda_handler slack_down login_rules (batch_of [removed_record]) []
  = ([ELog DEBUG "s3_notification_event";
      ELog INFO "s3:ObjectRemoved event";
      EPost (event_to_slack_message removed_record
               (JStr "AWSLogs/123456789012/CloudTrail/log.json.gz") (JStr ""))
        (JStr "");
      EPost (message_for_slack_error_notification (Failure "URLError")
               (batch_of [removed_record])) JNull],
     Raise (Failure "URLError"))
  /\ snd (lambda_handler slack_down login_rules (batch_of [removed_record]) [])
     <> Return 200%Z.
Proof. split; [reflexivity | discriminate]. Qed.

(** The third case of C5 happens: the first match-rule exits while the
    sub-event of a created object is evaluated; [SystemExit] passes lines
    157 and 61, nothing is posted and [lambda_handler] does not return. *)
Lemma lambda_handler_can_exit :
  lambda_handler one_event_world exiting_rules (batch_of [created_record]) []
  = ([ELog DEBUG "s3_notification_event";
      EGetObject (JStr "trail-bucket")
        "AWSLogs/123456789012/CloudTrail/log.json.gz";
      ELog DEBUG "Rules"; ELog DEBUG "Flattened event";
      EEval "__import__('sys').exit(3)"],
     RaiseBase (SystemExit 3)).
Proof. reflexivity. Qed.

(** C6.  For a created-object record whose bucket name and object key can
    be read and whose URL-decoded key contains "Digest",
    [get_cloudtrail_log_records] returns [None] with no effect at all (no
    fetch, no decoding), [handle_created_object_record] does nothing, and
    dispatching the record as a creation evaluates no rule, fetches
    nothing and posts nothing. *)
Theorem digest_objects_are_skipped :
  forall (W : World) (cfg cfg_ : Config) (batch record bucket : json)
         (quoted : string) (h : history),
    Py.getpath record ["s3"; "bucket"; "name"] = Return bucket ->
    Py.getpath record ["s3"; "object"; "key"] = Return (JStr quoted) ->
    PyStr.contains "Digest" (unquote_plus W quoted) = true ->
    get_cloudtrail_log_records W record h = ([], Return None)
    /\ handle_created_object_record W cfg record cfg_ h = ([], Return tt)
    /\ (forall name,
          Py.getitem record "eventName" = Return (JStr name) ->
          PyStr.startswith name "ObjectCreated" = true ->
          PyStr.startswith name "ObjectRemoved" = false ->
          exists t,
            dispatch_record W cfg batch record h = (t, Return tt)
            /\ fetches t = [] /\ evaluated t = [] /\ notifications t = []).
Proof.
  intros W cfg cfg_ batch record bucket quoted h Hbucket Hkey Hdigest.
  pose proof (DispatchFacts.get_cloudtrail_log_records_digest
                W record bucket quoted) as Hget.
  assert (Hcreated : forall c h',
             handle_created_object_record W cfg record c h' = ([], Return tt)).
  { intros c h'. unfold handle_created_object_record.
    now rewrite (RunFacts.bind_return _ _ _ _ _
                   (Hget h' Hbucket Hkey Hdigest)). }
  split; [now apply Hget|]. split; [apply Hcreated|].
  intros name Hname Hc Hr. unfold dispatch_record.
  rewrite Hname, RunFacts.bind_lift_return, Hkey, RunFacts.bind_lift_return.
  cbn [Py.contains]. rewrite RunFacts.bind_lift_return.
  cbn [Py.startswith].
  destruct (PyStr.contains "Digest" quoted); cbn [negb when].
  - rewrite RunFacts.bind_ret, RunFacts.bind_lift_return, Hr.
    rewrite RunFacts.bind_lift_return, Hc, Hcreated.
    exists []. repeat split.
  - unfold log. rewrite RunFacts.bind_emit, RunFacts.bind_lift_return, Hr.
    rewrite RunFacts.bind_lift_return, Hc, Hcreated.
    eexists. split; [reflexivity|]. repeat split.
Qed.

Lemma digest_objects_are_skipped_witness :
  PyStr.contains "Digest"
    "AWSLogs/123456789012/CloudTrail-D%69gest/d.json.gz" = false
  /\ get_cloudtrail_log_records quiet_world digest_record [] = ([], Return None)
  /\ handle_created_object_record quiet_world login_rules digest_record
       login_rules [] = ([], Return tt).
Proof.
  split; [reflexivity|].
  destruct (digest_objects_are_skipped quiet_world login_rules login_rules
              (batch_of [digest_record]) digest_record (JStr "trail-bucket")
              "AWSLogs/123456789012/CloudTrail-D%69gest/d.json.gz" []
              eq_refl eq_refl eq_refl) as (H1 & H2 & _).
  split; [exact H1 | exact H2].
Defined.

(** C9.  A removal-type record whose event name, object key and actor
    identity can be read is dispatched to exactly one notification call,
    the removal notification of that record; no rule is evaluated and no
    object is fetched, and the configuration (match-rules, ignore-rules,
    toggle) does not enter: every configuration gives the same run. *)
Theorem removed_record_notified_once :
  forall (W : World) (cfg : Config) (batch record : json)
         (name : string) (source_file account_id : json) (digest : bool)
         (h : history),
    Py.getitem record "eventName" = Return (JStr name) ->
    PyStr.startswith name "ObjectRemoved" = true ->
    Py.getpath record ["s3"; "object"; "key"] = Return source_file ->
    Py.contains "Digest" source_file = Return digest ->
    account_id_of record = Return account_id ->
    exists t r,
      dispatch_record W cfg batch record h = (t, r)
      /\ notifications t
         = [(event_to_slack_message record source_file account_id,
             account_id)]
      /\ evaluated t = []
      /\ fetches t = []
      /\ (forall cfg', dispatch_record W cfg' batch record h = (t, r))
      /\ notifications (fst (handle_removed_object_record W record h))
         = [(event_to_slack_message record source_file account_id,
             account_id)].
Proof.
  intros W cfg batch record name source_file account_id digest h
         Hname Hr Hkey Hdigest Ha.
  set (removal := event_to_slack_message record source_file account_id).
  set (logged := if digest then [] else [ELog DEBUG "s3_notification_event"]).
  assert (Hrun : forall c,
             dispatch_record W c batch record h
             = (logged ++ [ELog INFO "s3:ObjectRemoved event";
                           EPost removal account_id],
                match post_message_raises W
                        (h ++ logged ++ [ELog INFO "s3:ObjectRemoved event"])
                        removal account_id with
                | None => Return tt
                | Some e => Raise e
                end)).
  { intros c. unfold dispatch_record, logged.
    rewrite Hname, RunFacts.bind_lift_return, Hkey, RunFacts.bind_lift_return.
    rewrite Hdigest, RunFacts.bind_lift_return. cbn [Py.startswith].
    unfold handle_removed_object_record, log, post_message.
    destruct digest; cbn [negb when].
    - rewrite RunFacts.bind_ret, RunFacts.bind_lift_return, Hr.
      rewrite RunFacts.bind_emit, Ha, RunFacts.bind_lift_return.
      rewrite Hkey, RunFacts.bind_lift_return. reflexivity.
    - rewrite RunFacts.bind_emit, RunFacts.bind_lift_return, Hr.
      rewrite RunFacts.bind_emit, Ha, RunFacts.bind_lift_return.
      rewrite Hkey, RunFacts.bind_lift_return. cbn [fst snd app].
      now rewrite <- app_assoc. }
  eexists. eexists. split; [apply Hrun|].
  split; [unfold logged; now destruct digest|].
  split; [unfold logged; now destruct digest|].
  split; [unfold logged; now destruct digest|].
  split; [intros cfg'; apply Hrun|].
  destruct (DispatchFacts.handle_removed_object_record_run
              W record source_file account_id h Hkey Ha) as [r' Hrm].
  now rewrite Hrm.
Qed.

Lemma removed_record_notified_once_witness :
  exists t r,
    dispatch_record slack_down reporting_rules (batch_of [removed_record])
      removed_record [] = (t, r)
    /\ notifications t
       = [(event_to_slack_message removed_record
             (JStr "AWSLogs/123456789012/CloudTrail/log.json.gz") (JStr ""),
           JStr "")].
Proof.
  destruct (removed_record_notified_once slack_down reporting_rules
              (batch_of [removed_record]) removed_record
              "ObjectRemoved:Delete"
              (JStr "AWSLogs/123456789012/CloudTrail/log.json.gz") (JStr "")
              false [] eq_refl eq_refl eq_refl eq_refl eq_refl)
    as (t & r & Hd & Hn & _).
  exists t, r. split; [exact Hd | exact Hn].
Defined.

(* ================================================================== *)
(** * Sub-events *)

Module SubEventFacts.
Import RunFacts HandlerFacts.

Lemma posts_only_other_account e :
  is_post e = false -> posts_other_account e = false.
Proof. now destruct e. Qed.

Lemma no_account_id event user :
  Py.getitem event "userIdentity" = Return user ->
  Py.contains "accountId" user = Return false ->
  account_id_of event = Return (JStr "").
Proof.
  intros Hu Hc. unfold account_id_of. rewrite Hu. cbn [Py.and_then].
  now rewrite Hc.
Qed.

(** Lines 172-193 with the empty string as account id. *)
Lemma handle_event_empty_account W cfg event object_key rules ignore_rules :
  account_id_of event = Return (JStr "") ->
  at_most posts_other_account 0
    (handle_event W cfg event object_key rules ignore_rules).
Proof.
  intros Ha. unfold handle_event. rewrite Ha.
  apply (at_most_bind _ 0 0).
  { apply BoundFacts.quiet_should_message_be_processed.
    apply posts_only_other_account. }
  intros result h. rewrite bind_lift_return. revert h.
  apply (at_most_bind _ 0 0).
  { apply at_most_when, BoundFacts.at_most_for_each_none. intros failed.
    apply (BoundFacts.at_most_post W posts_other_account). }
  intros _. destruct (negb (should_be_processed result));
    [apply at_most_ret|].
  apply (at_most_bind _ 0 0); [apply at_most_lift | intros denied].
  apply (at_most_bind _ 0 0).
  { apply at_most_when, BoundFacts.quiet_log, posts_only_other_account. }
  intros _. apply (BoundFacts.at_most_post W posts_other_account).
Qed.

Lemma accounts_of_posts t :
  count posts_other_account t = 0 ->
  Forall (fun n => snd n = JStr "") (notifications t).
Proof.
  unfold count. induction t as [|e t IH]; simpl; [constructor|].
  destruct (posts_other_account e) eqn:He; [discriminate|].
  intros Ht. apply Forall_app. split; [|now apply IH].
  destruct e as [| | |m a]; try constructor; [|constructor].
  simpl. destruct a as [| | |[|]| |]; try reflexivity;
    destruct m; simpl in He; try discriminate;
    rewrite ?andb_false_r in He; discriminate.
Qed.

Lemma missing_key_raises W members rules ignore_rules h :
  Dict.get "userIdentity" members = None
  \/ Dict.get "eventName" members = None ->
  should_message_be_processed W (JDict members) rules ignore_rules h
  = ([], Raise (KeyError (first_missing_key members))).
Proof.
  intros Hmissing. unfold first_missing_key.
  destruct (Dict.get "userIdentity" members) as [user|] eqn:Hu.
  - destruct Hmissing as [Hm|Hm]; [discriminate|].
    apply (EvaluatorFacts.should_message_be_processed_no_name
             W (JDict members) rules ignore_rules user).
    + simpl. now rewrite Hu.
    + simpl. now rewrite Hm.
  - apply EvaluatorFacts.should_message_be_processed_no_user.
    simpl. now rewrite Hu.
Qed.

End SubEventFacts.

(** C10.  A sub-event mapping without "userIdentity" or without
    "eventName" makes [should_message_be_processed] raise [KeyError] with
    no rule evaluated and nothing else done; in a batch the exception
    leaves [handle_event] and [handle_created_object_record] uncaught, so
    that the sub-events after it are not processed.  A sub-event whose
    "userIdentity" is present and does not contain "accountId" has the
    empty string as account id, and every notification call that
    [handle_event] makes about it carries the empty string. *)
Theorem sub_event_needs_identity_and_name :
  forall (W : World) (cfg cfg_ : Config) (event : json)
         (match_rules ignore_list : list string) (h : history),
    (forall members,
        event = JDict members ->
        Dict.get "userIdentity" members = None
        \/ Dict.get "eventName" members = None ->
        should_message_be_processed W event match_rules ignore_list h
        = ([], Raise (KeyError (first_missing_key members)))
        /\ (forall record object_key pre post t0 t,
              get_cloudtrail_log_records W record h
              = (t0, Return (Some {| key := object_key;
                                     events := JList (pre ++ event :: post) |})) ->
              for_each pre (fun ev =>
                handle_event W cfg ev object_key
                  (rules cfg_) (ignore_rules cfg_))
                (h ++ t0)
              = (t, Return tt) ->
              handle_created_object_record W cfg record cfg_ h
              = (t0 ++ t, Raise (KeyError (first_missing_key members)))))
    /\ (forall user object_key,
          Py.getitem event "userIdentity" = Return user ->
          Py.contains "accountId" user = Return false ->
          account_id_of event = Return (JStr "")
          /\ Forall (fun n => snd n = JStr "")
               (notifications
                  (fst (handle_event W cfg event object_key match_rules
                          ignore_list h)))
          /\ count posts_other_account
               (fst (handle_event W cfg event object_key match_rules
                       ignore_list h)) = 0).
Proof.
  intros W cfg cfg_ event match_rules ignore_list h. split.
  - intros members -> Hmissing.
    split; [now apply SubEventFacts.missing_key_raises|].
    intros record object_key pre post t0 t Hget Hpre.
    unfold handle_created_object_record.
    rewrite (RunFacts.bind_return _ _ _ _ _ Hget). cbn [events key Py.iterate].
    rewrite RunFacts.bind_lift_return.
    rewrite (HandlerFacts.for_each_app_raise _ pre (JDict members) post
               (h ++ t0) t [] (KeyError (first_missing_key members)) Hpre).
    + now rewrite app_nil_r.
    + unfold handle_event.
      apply RunFacts.bind_raise.
      now apply SubEventFacts.missing_key_raises.
  - intros user object_key Hu Hc.
    pose proof (SubEventFacts.no_account_id event user Hu Hc) as Ha.
    pose proof (SubEventFacts.handle_event_empty_account
                  W cfg event object_key match_rules ignore_list Ha h) as Hb.
    assert (Hz : count posts_other_account
                   (fst (handle_event W cfg event object_key match_rules
                           ignore_list h)) = 0) by lia.
    split; [exact Ha|]. split; [|exact Hz].
    now apply SubEventFacts.accounts_of_posts.
Qed.

Lemma sub_event_needs_identity_and_name_witness :
  should_message_be_processed quiet_world nameless_event
    (rules reporting_rules) ["True"] []
  = ([], Raise (KeyError "eventName"))
  /\ handle_created_object_record
       (world_with (JDict [("Records",
                            JList [console_login; nameless_event;
                                   console_login])])
          (fun _ => None))
       login_rules created_record login_rules []
     = ([EGetObject (JStr "trail-bucket")
           "AWSLogs/123456789012/CloudTrail/log.json.gz";
         ELog DEBUG "Rules"; ELog DEBUG "Flattened event";
         EEval "event['eventName'] == 'ConsoleLogin'";
         ELog INFO "Event matched rule and will be processed";
         EPost (event_to_slack_message console_login
                  (JStr "AWSLogs/123456789012/CloudTrail/log.json.gz")
                  (JStr "123456789012"))
           (JStr "123456789012")],
        Raise (KeyError "eventName"))
  /\ account_id_of service_event = Return (JStr "").
Proof.
  pose (W := world_with (JDict [("Records",
                                 JList [console_login; nameless_event;
                                        console_login])])
               (fun _ => None)).
  destruct (sub_event_needs_identity_and_name quiet_world login_rules
              login_rules nameless_event (rules reporting_rules) ["True"] [])
    as [Hmissing _].
  destruct (sub_event_needs_identity_and_name W login_rules
              login_rules nameless_event (rules reporting_rules) ["True"] [])
    as [Hbatch _].
  destruct (sub_event_needs_identity_and_name quiet_world login_rules
              login_rules service_event (rules reporting_rules) ["True"] [])
    as [_ Haccount].
  split; [|split].
  - apply (Hmissing _ eq_refl). now right.
  - destruct (Hbatch _ eq_refl (or_intror eq_refl)) as [_ Hcreated].
    apply (Hcreated created_record
             "AWSLogs/123456789012/CloudTrail/log.json.gz"
             [console_login] [console_login]
             [EGetObject (JStr "trail-bucket")
                "AWSLogs/123456789012/CloudTrail/log.json.gz"]);
      reflexivity.
  - apply (Haccount (JDict [("type", JStr "AWSService")]) "k"); reflexivity.
Defined.

(** C8, as amended.  With the toggle disabled [handle_event] makes no
    evaluation-error notification call, whatever the sub-event, the rules
    and the notifier do.  For a well-shaped sub-event whose rules return a
    value or raise an [Exception], the evaluator returns the verdict with
    the collected errors; when in addition no notification call raises,
    [handle_event] returns, and its notification calls are: one
    evaluation-error notification per collected error, in order, if and
    only if the toggle is enabled, followed by the notification of the
    sub-event exactly when the verdict is "process" - collected errors or
    not. *)
Theorem evaluation_errors_reported_when_enabled :
  forall (W : World) (cfg : Config) (event : json) (object_key : string)
         (match_rules ignore_list : list string) (h : history),
    let result := verdict W (flatten_json event) match_rules ignore_list in
    let run := handle_event W cfg event object_key match_rules ignore_list h in
    (rule_evaluation_errors_to_slack cfg = false ->
     count is_rule_error_post (fst run) = 0)
    /\ (forall account_id : json,
          well_shaped event ->
          rules_contained W match_rules ignore_list event ->
          account_id_of event = Return account_id ->
          (exists t0,
              should_message_be_processed W event match_rules ignore_list h
              = (t0, Return result))
          /\ (reliable W ->
              snd run = Return tt
              /\ notifications (fst run)
                 = (if rule_evaluation_errors_to_slack cfg
                    then map (report_of object_key account_id) (errors result)
                    else [])
                   ++ (if should_be_processed result
                       then [(event_to_slack_message event (JStr object_key)
                                account_id, account_id)]
                       else []))).
Proof.
  intros W cfg event object_key match_rules ignore_list h result run.
  split.
  - intros Hoff.
    assert (H : at_most is_rule_error_post 0
                  (handle_event W cfg event object_key match_rules
                     ignore_list)).
    { apply BoundFacts.at_most_handle_event.
      - now intros [].
      - now left.
      - intros. apply Nat.le_refl. }
    specialize (H h). fold run in H. lia.
  - intros account_id Hshape Hc Ha. split.
    + destruct Hshape as ((user & Hu) & (name & Hn) & _).
      destruct (EvaluatorFacts.should_message_be_processed_run
                  W event match_rules ignore_list user name h Hu Hn Hc)
        as (t0 & Ht0 & _).
      now exists t0.
    + intros Hworks.
      destruct (HandlerFacts.handle_event_returns W cfg Hworks event
                  object_key match_rules ignore_list h Hshape Hc)
        as (t & Ht & Hn & _).
      fold run in Ht. rewrite Ht. cbn [fst snd]. split; [reflexivity|].
      rewrite Hn. unfold expected_notifications. now rewrite Ha.
Qed.

Lemma evaluation_errors_reported_witness :
  notifications
    (fst (handle_event quiet_world accept_after_error console_login
            "log.json.gz" (rules accept_after_error) [] []))
  = [(message_for_rule_evaluation_error_notification
        (Failure "SyntaxError") "log.json.gz" "event[",
      JStr "123456789012");
     (event_to_slack_message console_login (JStr "log.json.gz")
        (JStr "123456789012"),
      JStr "123456789012")].
Proof.
  assert (Hshape : well_shaped console_login).
  { repeat split; eexists; reflexivity. }
  assert (Hc : rules_contained quiet_world (rules accept_after_error) []
                 console_login).
  { repeat (apply Forall_cons; [intros b; vm_compute; discriminate|]).
    apply Forall_nil. }
  destruct (evaluation_errors_reported_when_enabled quiet_world
              accept_after_error console_login "log.json.gz"
              (rules accept_after_error) [] []) as (_ & Hposts).
  destruct (Hposts (JStr "123456789012") Hshape Hc eq_refl) as (_ & Hrun).
  destruct Hrun as [_ Hn]; [intros h m a; reflexivity|].
  exact Hn.
Defined.

(** C8 as stated fails: the verdict on the sub-event is "process", but
    the call reporting the collected error raises and the sub-event is
    never notified; without the failing rule the same sub-event is
    notified. *)
Lemma collected_error_can_prevent_notification :
  should_be_processed
    (verdict reports_rejected (flatten_json console_login)
       (rules accept_after_error) [])
  = true
  /\ handle_event reports_rejected accept_after_error console_login
       "log.json.gz" (rules accept_after_error) [] []
     = ([ELog DEBUG "Rules"; ELog DEBUG "Flattened event";
         EEval "event["; ELog ERROR "Event parsing failed";
         EEval "True";
         ELog INFO "Event matched rule and will be processed";
         EPost (message_for_rule_evaluation_error_notification
                  (Failure "SyntaxError") "log.json.gz" "event[")
           (JStr "123456789012")],
        Raise (Failure "HTTPError"))
  /\ notifications
       (fst (handle_event reports_rejected accept_after_error console_login
               "log.json.gz" ["True"] [] []))
     = [(event_to_slack_message console_login (JStr "log.json.gz")
           (JStr "123456789012"),
         JStr "123456789012")].
Proof. repeat split. Qed.

(** C7, as amended.  When the decoded batch of a created-object record
    holds the list [sub_events], [handle_created_object_record] makes at
    most one sub-event notification call per sub-event; with the toggle
    disabled it makes no other notification call, so at most
    [length sub_events] calls in all.  When the sub-events are well-shaped,
    their rules return a value or raise an [Exception], and no
    notification call raises, it returns and its notification calls are,
    sub-event by sub-event: one evaluation-error notification
    per collected error if the toggle is enabled, then one notification of
    the sub-event if the verdict is "process" and none if it is "do not
    process". *)
Theorem created_record_notification_calls :
  forall (W : World) (cfg cfg_ : Config) (record : json)
         (object_key : string) (sub_events : list json)
         (h : history) (t0 : list effect),
    get_cloudtrail_log_records W record h
    = (t0, Return (Some {| key := object_key;
                           events := JList sub_events |})) ->
    exists t r,
      handle_created_object_record W cfg record cfg_ h = (t0 ++ t, r)
      /\ count is_event_post t <= length sub_events
      /\ (rule_evaluation_errors_to_slack cfg = false ->
          count is_post t <= length sub_events)
      /\ (reliable W -> Forall well_shaped sub_events ->
          Forall (rules_contained W (rules cfg_) (ignore_rules cfg_))
            sub_events ->
          r = Return tt
          /\ notifications t
             = flat_map
                 (expected_notifications W cfg object_key
                    (rules cfg_) (ignore_rules cfg_))
                 sub_events).
Proof.
  intros W cfg cfg_ record object_key sub_events h t0 Hget.
  set (body := fun ev =>
         handle_event W cfg ev object_key (rules cfg_) (ignore_rules cfg_)).
  exists (fst (for_each sub_events body (h ++ t0))),
         (snd (for_each sub_events body (h ++ t0))).
  split.
  { unfold handle_created_object_record.
    rewrite (RunFacts.bind_return _ _ _ _ _ Hget). cbn [events key Py.iterate].
    now rewrite RunFacts.bind_lift_return. }
  split; [|split].
  - assert (H : at_most is_event_post (length sub_events * 1)
                  (for_each sub_events body)).
    { apply RunFacts.at_most_for_each. intros ev.
      apply BoundFacts.at_most_handle_event.
      - now intros [].
      - now right.
      - intros. apply Nat.le_refl. }
    specialize (H (h ++ t0)). lia.
  - intros Hoff.
    assert (H : at_most is_post (length sub_events * 1)
                  (for_each sub_events body)).
    { apply RunFacts.at_most_for_each. intros ev.
      apply BoundFacts.at_most_handle_event.
      - trivial.
      - now left.
      - intros. apply Nat.le_refl. }
    specialize (H (h ++ t0)). lia.
  - intros Hworks Hshape Hc.
    destruct (HandlerFacts.for_each_event_returns W cfg Hworks object_key
                (rules cfg_) (ignore_rules cfg_) sub_events Hshape Hc
                (h ++ t0))
      as (t & Ht & Hn).
    fold body in Ht. rewrite Ht. now split.
Qed.

Lemma created_record_notification_calls_witness :
  exists t,
    handle_created_object_record quiet_world login_rules created_record
      login_rules []
    = ([EGetObject (JStr "trail-bucket")
          "AWSLogs/123456789012/CloudTrail/log.json.gz"] ++ t, Return tt)
    /\ notifications t
       = [(event_to_slack_message console_login
             (JStr "AWSLogs/123456789012/CloudTrail/log.json.gz")
             (JStr "123456789012"),
           JStr "123456789012")].
Proof.
  destruct (created_record_notification_calls quiet_world login_rules
              login_rules created_record
              "AWSLogs/123456789012/CloudTrail/log.json.gz"
              [console_login; service_event] []
              [EGetObject (JStr "trail-bucket")
                 "AWSLogs/123456789012/CloudTrail/log.json.gz"]
              eq_refl) as (t & r & Hrun & _ & _ & Hposts).
  destruct Hposts as [Hr Hn].
  - intros h m a. reflexivity.
  - repeat constructor; eexists; reflexivity.
  - repeat (apply Forall_cons;
            [repeat (apply Forall_cons; [intros b; vm_compute; discriminate|]);
             apply Forall_nil|]).
    apply Forall_nil.
  - exists t. subst r. split; [exact Hrun | exact Hn].
Defined.

(** C7 as stated fails: the batch holds one sub-event, its verdict is "do
    not process", and with the toggle enabled two notification calls are
    made, one per rule that failed to evaluate. *)
Lemma created_record_can_post_more_than_its_sub_events :
  get_cloudtrail_log_records one_event_world created_record []
  = ([EGetObject (JStr "trail-bucket")
        "AWSLogs/123456789012/CloudTrail/log.json.gz"],
     Return (Some {| key := "AWSLogs/123456789012/CloudTrail/log.json.gz";
                     events := JList [service_event] |}))
  /\ should_be_processed
       (verdict one_event_world (flatten_json service_event)
          (rules reporting_rules) (ignore_rules reporting_rules))
     = false
  /\ notifications
       (fst (handle_created_object_record one_event_world reporting_rules
               created_record reporting_rules []))
     = [(message_for_rule_evaluation_error_notification
           (KeyError "errorCode")
           "AWSLogs/123456789012/CloudTrail/log.json.gz"
           "event['errorCode'] == 'AccessDenied'", JStr "");
        (message_for_rule_evaluation_error_notification
           (Failure "SyntaxError")
           "AWSLogs/123456789012/CloudTrail/log.json.gz"
           "event[", JStr "")]
  /\ count is_post
       (fst (handle_created_object_record one_event_world reporting_rules
               created_record reporting_rules []))
     = 2.
Proof. repeat split. Qed.

(* ================================================================== *)
(** * Further properties of the flattener *)

Module FlattenMore.
Import PyStr PyStrFacts FlattenFacts.

Lemma get_writes_other k ls :
  ~ In k (leaf_keys ls) ->
  forall out, Dict.get k (fold_left write_leaf ls out) = Dict.get k out.
Proof.
  induction ls as [|leaf ls IH]; intros Hk out; [reflexivity|].
  simpl in *. rewrite IH by tauto. unfold write_leaf.
  apply DictFacts.get_set_other. intros E. apply Hk. now left.
Qed.

Lemma in_set k v k' v' (d : dict json) :
  In (k, v) (Dict.set k' v' d) -> (k = k' /\ v = v') \/ In (k, v) d.
Proof.
  induction d as [|[k0 v0] d IH]; simpl.
  - intros [E|[]]. injection E as <- <-. now left.
  - destruct (String.eqb k' k0) eqn:E; simpl.
    + apply String.eqb_eq in E. subst k0.
      intros [H|H]; [injection H as <- <-; now left | right; now right].
    + intros [H|H]; [right; now left|].
      destruct (IH H) as [?|?]; [now left | right; now right].
Qed.

Lemma in_writes k v ls :
  forall out,
    In (k, v) (fold_left write_leaf ls out) ->
    In (k, v) out \/ exists p, In (p, v) ls /\ path_key p = k.
Proof.
  induction ls as [|[p w] ls IH]; intros out Hin; [now left|].
  simpl in Hin. destruct (IH _ Hin) as [Hout|(q & Hq & Hk)].
  - unfold write_leaf in Hout. simpl in Hout.
    destruct (in_set _ _ _ _ _ Hout) as [[-> ->]|Hd]; [|now left].
    right. exists p. split; [now left | reflexivity].
  - right. exists q. split; [now right | exact Hk].
Qed.

Lemma writes_keep_unique ls :
  forall out,
    Dict.unique_keys out -> Dict.unique_keys (fold_left write_leaf ls out).
Proof.
  induction ls as [|leaf ls IH]; intros out Hout; [exact Hout|].
  simpl. apply IH. now apply DictFacts.set_keeps_unique.
Qed.

Lemma length_set k v (d : dict json) :
  length (Dict.set k v d) <= S (length d).
Proof.
  induction d as [|[k0 v0] d IH]; simpl; [apply Nat.le_refl|].
  destruct (String.eqb k k0); simpl.
  - apply Nat.le_succ_diag_r.
  - now apply le_n_S.
Qed.

Lemma length_writes ls :
  forall out : flat_event,
    length (fold_left write_leaf ls out) <= length out + length ls.
Proof.
  induction ls as [|leaf ls IH]; intros out; simpl.
  - rewrite Nat.add_0_r. apply Nat.le_refl.
  - eapply Nat.le_trans; [apply IH|].
    rewrite Nat.add_succ_r. apply (Nat.add_le_mono_r _ (S (length out))).
    apply length_set.
Qed.

Lemma leaves_members_app d1 d2 :
  leaves_members (d1 ++ d2) = leaves_members d1 ++ leaves_members d2.
Proof.
  induction d1 as [|[a xa] d1 IH]; simpl; [reflexivity|].
  now rewrite IH, app_assoc.
Qed.

Lemma flatten_scalar v name out :
  is_scalar v = true ->
  flatten v name out = Dict.set (drop_last name) v out.
Proof. destruct v; simpl; intros H; try reflexivity; discriminate. Qed.

Lemma flatten_members_scalars (d : dict json) :
  Forall (fun kv => is_scalar (snd kv) = true) d ->
  forall out,
    flatten_members d "" out
    = fold_left (fun o kv => Dict.set (fst kv) (snd kv) o) d out.
Proof.
  induction 1 as [|[k v] d Hv _ IH]; intros out; [reflexivity|].
  simpl in *. rewrite IH, (flatten_scalar v _ _ Hv).
  now rewrite drop_last_dot.
Qed.

Lemma set_prefix_keys a k v (d : flat_event) :
  Dict.set (a ++ "." ++ k)%string v (prefix_keys a d)
  = prefix_keys a (Dict.set k v d).
Proof.
  induction d as [|[k0 v0] d IH]; [reflexivity|].
  simpl.
  assert (E : String.eqb (a ++ String "." k) (a ++ String "." k0)
              = String.eqb k k0).
  { destruct (String.eqb k k0) eqn:Hk.
    - apply String.eqb_eq in Hk. subst. apply String.eqb_refl.
    - apply String.eqb_neq. apply String.eqb_neq in Hk. intros H.
      apply append_inj_l in H. injection H as H. contradiction. }
  rewrite E. destruct (String.eqb k k0); simpl; [reflexivity|].
  simpl in IH. now rewrite IH.
Qed.

(** Recording the leaves of a container below the segment [a]. *)
Lemma record_below a ls :
  (forall p v, In (p, v) ls -> p <> []) ->
  forall out,
    fold_left (record_leaf (a ++ ".")%string) ls (prefix_keys a out)
    = prefix_keys a (fold_left write_leaf ls out).
Proof.
  induction ls as [|[p v] ls IH]; intros Hne out; [reflexivity|].
  simpl. rewrite <- IH by (intros q w Hq; apply (Hne q w); now right).
  f_equal. unfold record_leaf, write_leaf, path_key. simpl.
  destruct (CollisionFacts.path_name_ends p (Hne p v (or_introl eq_refl)))
    as [s Hs].
  rewrite Hs, drop_last_dot.
  rewrite <- (append_assoc (a ++ ".") s "."), drop_last_dot.
  rewrite append_assoc. apply set_prefix_keys.
Qed.

Lemma flatten_json_unique y : Dict.unique_keys (flatten_json y).
Proof.
  rewrite flatten_json_leaves. apply writes_keep_unique. constructor.
Qed.

Lemma flatten_json_entries y k v :
  In (k, v) (flatten_json y) ->
  exists p, In (p, v) (leaves y) /\ path_key p = k.
Proof.
  rewrite flatten_json_leaves. intros H.
  destruct (in_writes _ _ _ _ H) as [[]|Hp]. exact Hp.
Qed.

Lemma flatten_json_scalars y :
  Forall (fun kv => is_scalar (snd kv) = true) (flatten_json y).
Proof.
  apply Forall_forall. intros [k v] H.
  destruct (flatten_json_entries y k v H) as (p & Hp & _).
  exact (leaves_scalar y p v Hp).
Qed.

End FlattenMore.

(** X1.  Last write wins: when several leaves share a flattened key, the
    mapping holds at that key the value of the one visited last; a leaf
    after which no leaf has the same key is found at its key. *)
Theorem flatten_json_last_write_wins :
  forall (y : json) (before after : list (path * json)) (p : path) (v : json),
    leaves y = before ++ (p, v) :: after ->
    ~ In (path_key p) (leaf_keys after) ->
    Dict.get (path_key p) (flatten_json y) = Some v.
Proof.
  intros y before after p v Hy Hlast.
  rewrite FlattenFacts.flatten_json_leaves, Hy, fold_left_app. simpl.
  rewrite (FlattenMore.get_writes_other _ _ Hlast).
  unfold write_leaf. simpl. apply DictFacts.get_set_same.
Qed.

Lemma flatten_json_last_write_wins_witness :
  Dict.get "a.b" (flatten_json colliding) = Some (JInt 2).
Proof.
  apply (flatten_json_last_write_wins colliding
           [([Key "a.b"], JInt 1)] [] [Key "a"; Key "b"] (JInt 2)).
  - reflexivity.
  - simpl. tauto.
Defined.

(** X2.  The flattened mapping is a flat dictionary: its keys are pairwise
    distinct, every value is a scalar (never a list or a dict), every
    entry is the key and value of some leaf of the input, and there are no
    more entries than leaves. *)
Theorem flatten_json_is_flat :
  forall y : json,
    Dict.unique_keys (flatten_json y)
    /\ Forall (fun kv => is_scalar (snd kv) = true) (flatten_json y)
    /\ (forall k v, In (k, v) (flatten_json y) ->
          exists p, In (p, v) (leaves y) /\ path_key p = k)
    /\ length (flatten_json y) <= length (leaves y).
Proof.
  intros y.
  split; [apply FlattenMore.flatten_json_unique|].
  split; [apply FlattenMore.flatten_json_scalars|].
  split; [apply FlattenMore.flatten_json_entries|].
  rewrite FlattenFacts.flatten_json_leaves.
  apply (FlattenMore.length_writes (leaves y) []).
Qed.

(** X3.  A member whose value is an empty list or an empty dict leaves no
    trace in the flattened mapping: flattening the mapping with and
    without that member gives the same result. *)
Theorem flatten_json_drops_empty_containers :
  forall (d1 d2 : list (string * json)) (a : string),
    flatten_json (JDict (d1 ++ (a, JList []) :: d2))
    = flatten_json (JDict (d1 ++ d2))
    /\ flatten_json (JDict (d1 ++ (a, JDict []) :: d2))
       = flatten_json (JDict (d1 ++ d2)).
Proof.
  intros d1 d2 a.
  rewrite !FlattenFacts.flatten_json_leaves, !FlattenFacts.leaves_dict.
  rewrite !FlattenMore.leaves_members_app. simpl. split; reflexivity.
Qed.

(** X4.  Flattening is idempotent: the flattened mapping, flattened again,
    is itself. *)
Theorem flatten_json_idempotent :
  forall y : json, flatten_json (JDict (flatten_json y)) = flatten_json y.
Proof.
  intros y. unfold flatten_json at 1.
  rewrite FlattenFacts.flatten_dict.
  rewrite (FlattenMore.flatten_members_scalars _
             (FlattenMore.flatten_json_scalars y)).
  rewrite DictFacts.writes_fresh.
  - reflexivity.
  - apply FlattenMore.flatten_json_unique.
  - intros k _ [].
Qed.

(** X5.  Flattening composes with nesting: for a list or dict [x], the
    flattened [{a: x}] is the flattened [x] with "a." put before every
    key, and the flattened [[x]] is the flattened [x] with "0." put before
    every key. *)
Theorem flatten_json_under_a_key :
  forall (a : string) (x : json),
    is_scalar x = false ->
    flatten_json (JDict [(a, x)]) = prefix_keys a (flatten_json x)
    /\ flatten_json (JList [x]) = prefix_keys "0" (flatten_json x).
Proof.
  intros a x Hx.
  assert (H : forall s,
             flatten x (s ++ ".")%string [] = prefix_keys s (flatten_json x)).
  { intros s. rewrite FlattenFacts.flatten_leaves.
    rewrite FlattenFacts.flatten_json_leaves.
    apply (FlattenMore.record_below s (leaves x)
             (CollisionFacts.leaves_below x Hx) []). }
  split.
  - unfold flatten_json at 1. simpl. apply H.
  - unfold flatten_json at 1. simpl. apply (H "0"%string).
Qed.

Lemma flatten_json_under_a_key_witness :
  flatten_json (JDict [("resources", JList [JStr "arn"; JStr "role"])])
  = prefix_keys "resources" [("0", JStr "arn"); ("1", JStr "role")].
Proof.
  apply (flatten_json_under_a_key "resources"
           (JList [JStr "arn"; JStr "role"])).
  reflexivity.
Defined.

(* ================================================================== *)
(** * Further properties of the dispatcher and the log retriever *)

Module FetchFacts.
Import RunFacts.

Section Silent.
Variable W : World.
Variable cfg : Config.
Variable p : effect -> bool.

(** [p] counts object fetches only. *)
Hypothesis fetches_only : forall e, is_fetch e = false -> p e = false.

Lemma silent_emit e : is_fetch e = false -> at_most p 0 (emit e).
Proof.
  intros He h. unfold count. simpl. rewrite (fetches_only e He).
  apply Nat.le_refl.
Qed.

Lemma silent_post m account_id : at_most p 0 (post_message W m account_id).
Proof.
  intros h. unfold post_message, count. simpl.
  rewrite fetches_only by reflexivity. apply Nat.le_refl.
Qed.

Lemma silent_for_rule_in answer flat rule_list :
  forall collected,
    at_most p 0 (for_rule_in W answer flat rule_list collected).
Proof.
  induction rule_list as [|rule rest IH]; intros collected; simpl.
  - apply at_most_ret.
  - apply (at_most_bind p 0 0).
    { unfold eval. apply (at_most_bind p 0 0); [now apply silent_emit|].
      intros _. apply at_most_ret. }
    intros [v|e|b].
    + destruct (Py.is_True v); [|apply IH].
      apply (at_most_bind p 0 0); [now apply silent_emit|].
      intros _. apply at_most_ret.
    + apply (at_most_bind p 0 0); [now apply silent_emit|].
      intros _. apply IH.
    + apply at_most_lift.
Qed.

Lemma silent_handle_event event object_key rules ignore_rules :
  at_most p 0 (handle_event W cfg event object_key rules ignore_rules).
Proof.
  unfold handle_event, should_message_be_processed.
  apply (at_most_bind p 0 0).
  { apply (at_most_bind p 0 0); [apply at_most_lift | intros _].
    apply (at_most_bind p 0 0); [apply at_most_lift | intros _].
    apply (at_most_bind p 0 0); [now apply silent_emit | intros _].
    apply (at_most_bind p 0 0); [now apply silent_emit | intros _].
    apply (at_most_bind p 0 0); [apply silent_for_rule_in|].
    intros [r|collected]; [apply at_most_ret|].
    apply (at_most_bind p 0 0); [apply silent_for_rule_in|].
    intros [r|collected']; [apply at_most_ret|].
    apply (at_most_bind p 0 0); [now apply silent_emit | intros _].
    apply at_most_ret. }
  intros result.
  apply (at_most_bind p 0 0); [apply at_most_lift | intros account_id].
  apply (at_most_bind p 0 0).
  { apply at_most_when.
    apply (at_most_weaken p (length (errors result) * 0) 0); [|lia].
    apply at_most_for_each. intros failed. apply silent_post. }
  intros _. destruct (negb (should_be_processed result)); [apply at_most_ret|].
  apply (at_most_bind p 0 0); [apply at_most_lift | intros denied].
  apply (at_most_bind p 0 0);
    [apply at_most_when; now apply silent_emit | intros _].
  apply silent_post.
Qed.

Lemma silent_handle_removed_object_record record :
  at_most p 0 (handle_removed_object_record W record).
Proof.
  unfold handle_removed_object_record.
  apply (at_most_bind p 0 0); [now apply silent_emit | intros _].
  apply (at_most_bind p 0 0); [apply at_most_lift | intros account_id].
  apply (at_most_bind p 0 0); [apply at_most_lift | intros source_file].
  apply silent_post.
Qed.

Lemma one_fetch_get_cloudtrail_log_records record :
  at_most p 1 (get_cloudtrail_log_records W record).
Proof.
  unfold get_cloudtrail_log_records.
  apply (at_most_bind p 0 1); [apply at_most_lift | intros has_s3].
  destruct (negb has_s3).
  { apply (at_most_weaken p 0 1 _ (at_most_raise p _)). lia. }
  apply (at_most_bind p 0 1); [apply at_most_lift | intros bucket].
  apply (at_most_bind p 0 1); [apply at_most_lift | intros quoted].
  apply (at_most_bind p 0 1); [apply at_most_lift | intros key].
  destruct (PyStr.contains "Digest" key).
  { apply (at_most_weaken p 0 1 _ (at_most_ret p _)). lia. }
  apply (at_most_try p 1 0).
  - apply (at_most_bind p 1 0).
    + intros h. unfold get_object, count. simpl.
      destruct (p (EGetObject bucket key)); simpl; lia.
    + intros content.
      apply (at_most_bind p 0 0); [apply at_most_lift | intros records].
      apply at_most_ret.
  - intros e. apply (at_most_bind p 0 0); [now apply silent_emit | intros _].
    apply at_most_raise.
Qed.

Lemma one_fetch_dispatch_record batch record :
  at_most p 1 (dispatch_record W cfg batch record).
Proof.
  unfold dispatch_record.
  apply (at_most_bind p 0 1); [apply at_most_lift | intros event_name].
  apply (at_most_bind p 0 1); [apply at_most_lift | intros quoted].
  apply (at_most_bind p 0 1); [apply at_most_lift | intros digest].
  apply (at_most_bind p 0 1);
    [apply at_most_when; now apply silent_emit | intros _].
  apply (at_most_bind p 0 1); [apply at_most_lift | intros removed].
  destruct removed.
  { apply (at_most_weaken p 0 1 _
             (silent_handle_removed_object_record record)). lia. }
  apply (at_most_bind p 0 1); [apply at_most_lift | intros created].
  destruct created.
  2:{ apply (at_most_weaken p 0 1 _ (at_most_ret p _)). lia. }
  unfold handle_created_object_record.
  apply (at_most_bind p 1 0);
    [apply one_fetch_get_cloudtrail_log_records | intros [batch'|]];
    [|apply at_most_ret].
  apply (at_most_bind p 0 0); [apply at_most_lift | intros sub_events].
  apply (at_most_weaken p (length sub_events * 0) 0); [|lia].
  apply at_most_for_each. intros ev. apply silent_handle_event.
Qed.

End Silent.
End FetchFacts.

Module RetrieverFacts.
Import RunFacts.

(** Lines 98-123 on a key that is not a digest key: one fetch, then the
    batch, the logged [Exception], or what line 120 does not catch. *)
Lemma get_cloudtrail_log_records_fetch W record bucket quoted h :
  Py.getpath record ["s3"; "bucket"; "name"] = Return bucket ->
  Py.getpath record ["s3"; "object"; "key"] = Return (JStr quoted) ->
  PyStr.contains "Digest" (unquote_plus W quoted) = false ->
  get_cloudtrail_log_records W record h
  = match records_of_object W h bucket (unquote_plus W quoted) with
    | Return records =>
        ([EGetObject bucket (unquote_plus W quoted)],
         Return (Some {| key := unquote_plus W quoted; events := records |}))
    | Raise e =>
        ([EGetObject bucket (unquote_plus W quoted);
          ELog ERROR "Error getting object"], Raise e)
    | RaiseBase b =>
        ([EGetObject bucket (unquote_plus W quoted)], RaiseBase b)
    end.
Proof.
  intros Hbucket Hkey Hdigest. unfold get_cloudtrail_log_records.
  rewrite (DispatchFacts.getpath_head _ _ _ _ Hbucket), bind_lift_return.
  cbn [negb]. rewrite Hbucket, bind_lift_return, Hkey, bind_lift_return.
  cbn [unquote_key]. rewrite bind_lift_return, Hdigest.
  unfold records_of_object, try_except, bind, get_object, lift, ret, log,
    emit, raise.
  destruct (get_object_json W h bucket (unquote_plus W quoted)) as [c|e|b];
    cbn [Py.and_then]; [|reflexivity|reflexivity].
  destruct (Py.getitem c "Records"); reflexivity.
Qed.

(** Lines 43 and 59 when "Records" is a list. *)
Lemma process_records_list W cfg batch records h :
  Py.getitem batch "Records" = Return (JList records) ->
  process_records W cfg batch h
  = for_each records (dispatch_record W cfg batch) h.
Proof.
  intros H. unfold process_records.
  rewrite H, bind_lift_return. cbn [Py.iterate].
  now rewrite bind_lift_return.
Qed.

Lemma count_cons p e t : count p (e :: t) = count p [e] + count p t.
Proof. apply (count_app p [e] t). Qed.

End RetrieverFacts.

(** X6.  A record whose event name starts with neither "ObjectRemoved"
    nor "ObjectCreated" is silently ignored: apart from the debug log of
    line 46 nothing happens - no notification, no fetch, no rule
    evaluation - and the loop goes on.  Its object key is still read at
    line 45. *)
Theorem other_event_types_are_ignored :
  forall (W : World) (cfg : Config) (batch record quoted : json)
         (name : string) (digest : bool) (h : history),
    Py.getitem record "eventName" = Return (JStr name) ->
    Py.getpath record ["s3"; "object"; "key"] = Return quoted ->
    Py.contains "Digest" quoted = Return digest ->
    PyStr.startswith name "ObjectRemoved" = false ->
    PyStr.startswith name "ObjectCreated" = false ->
    dispatch_record W cfg batch record h
    = (if digest then [] else [ELog DEBUG "s3_notification_event"],
       Return tt).
Proof.
  intros W cfg batch record quoted name digest h Hname Hkey Hdigest Hr Hc.
  unfold dispatch_record.
  rewrite Hname, RunFacts.bind_lift_return, Hkey, RunFacts.bind_lift_return.
  rewrite Hdigest, RunFacts.bind_lift_return. cbn [Py.startswith].
  unfold log. destruct digest; cbn [negb when].
  - now rewrite RunFacts.bind_ret, RunFacts.bind_lift_return, Hr,
      RunFacts.bind_lift_return, Hc.
  - now rewrite RunFacts.bind_emit, RunFacts.bind_lift_return, Hr,
      RunFacts.bind_lift_return, Hc.
Qed.

Lemma other_event_types_are_ignored_witness :
  dispatch_record slack_down reporting_rules (batch_of [restored_record])
    restored_record []
  = ([ELog DEBUG "s3_notification_event"], Return tt).
Proof.
  apply (other_event_types_are_ignored slack_down reporting_rules
           (batch_of [restored_record]) restored_record
           (JStr "AWSLogs/123456789012/CloudTrail/log.json.gz")
           "ObjectRestore:Completed" false []); reflexivity.
Defined.

(** X7.  On a record without "s3" section [get_cloudtrail_log_records]
    raises [AssertionError] before doing anything.  Inside the handler
    that assertion is never what is raised: line 45 reads the section
    first, so dispatching such a record raises [KeyError] for "s3",
    whatever its event type. *)
Theorem missing_s3_section :
  forall (W : World) (cfg : Config) (batch : json) (members : dict json)
         (h : history),
    Dict.get "s3" members = None ->
    get_cloudtrail_log_records W (JDict members) h
    = ([], Raise AssertionError)
    /\ (forall name,
          Dict.get "eventName" members = Some name ->
          dispatch_record W cfg batch (JDict members) h
          = ([], Raise (KeyError "s3"))).
Proof.
  intros W cfg batch members h Hs3. split.
  - unfold get_cloudtrail_log_records. cbn [Py.contains].
    unfold Dict.mem. now rewrite Hs3.
  - intros name Hname. unfold dispatch_record. cbn [Py.getitem].
    rewrite Hname, RunFacts.bind_lift_return.
    cbn [Py.getpath Py.getitem]. now rewrite Hs3.
Qed.

Lemma missing_s3_section_witness :
  get_cloudtrail_log_records quiet_world sectionless_record []
  = ([], Raise AssertionError)
  /\ dispatch_record quiet_world login_rules (batch_of [sectionless_record])
       sectionless_record []
     = ([], Raise (KeyError "s3")).
Proof.
  destruct (missing_s3_section quiet_world login_rules
              (batch_of [sectionless_record])
              [("eventName", JStr "ObjectCreated:Put")] [] eq_refl)
    as [Hget Hdispatch].
  split; [exact Hget|].
  apply (Hdispatch (JStr "ObjectCreated:Put")). reflexivity.
Defined.

(** X8.  When fetching or decoding the object raises an [Exception], or
    the decoded content has no "Records", [get_cloudtrail_log_records] has made one
    fetch with the bucket and the URL-decoded key, logs the failure once
    and raises the same exception again; [handle_created_object_record]
    lets it through and processes no sub-event. *)
Theorem failed_fetch_is_logged_and_raised :
  forall (W : World) (cfg cfg_ : Config) (record bucket : json)
         (quoted : string) (e : exn) (h : history),
    Py.getpath record ["s3"; "bucket"; "name"] = Return bucket ->
    Py.getpath record ["s3"; "object"; "key"] = Return (JStr quoted) ->
    PyStr.contains "Digest" (unquote_plus W quoted) = false ->
    records_of_object W h bucket (unquote_plus W quoted) = Raise e ->
    get_cloudtrail_log_records W record h
    = ([EGetObject bucket (unquote_plus W quoted);
        ELog ERROR "Error getting object"], Raise e)
    /\ handle_created_object_record W cfg record cfg_ h
       = ([EGetObject bucket (unquote_plus W quoted);
           ELog ERROR "Error getting object"], Raise e).
Proof.
  intros W cfg cfg_ record bucket quoted e h Hbucket Hkey Hdigest Hfail.
  pose proof (RetrieverFacts.get_cloudtrail_log_records_fetch
                W record bucket quoted h Hbucket Hkey Hdigest) as Hget.
  rewrite Hfail in Hget. split; [exact Hget|].
  unfold handle_created_object_record.
  now rewrite (RunFacts.bind_raise _ _ _ _ _ Hget).
Qed.

Lemma failed_fetch_is_logged_and_raised_witness :
  handle_created_object_record store_down login_rules created_record
    login_rules []
  = ([EGetObject (JStr "trail-bucket")
        "AWSLogs/123456789012/CloudTrail/log.json.gz";
      ELog ERROR "Error getting object"], Raise (Failure "NoSuchKey")).
Proof.
  destruct (failed_fetch_is_logged_and_raised store_down login_rules
              login_rules created_record (JStr "trail-bucket")
              "AWSLogs/123456789012/CloudTrail/log.json.gz"
              (Failure "NoSuchKey") [] eq_refl eq_refl eq_refl eq_refl)
    as [_ H].
  exact H.
Defined.

(** X9.  A created-object record with a non-digest key whose object
    decodes to a list of sub-events makes exactly one fetch, with the
    bucket name and the URL-decoded key, before anything else; and when
    the sub-events are well-shaped, their rules return a value or raise an
    [Exception], and no notification call raises, the notifications about
    them carry that decoded key as their source file. *)
Theorem created_record_is_fetched_once :
  forall (W : World) (cfg cfg_ : Config) (record bucket : json)
         (quoted : string) (sub_events : list json) (h : history),
    Py.getpath record ["s3"; "bucket"; "name"] = Return bucket ->
    Py.getpath record ["s3"; "object"; "key"] = Return (JStr quoted) ->
    PyStr.contains "Digest" (unquote_plus W quoted) = false ->
    records_of_object W h bucket (unquote_plus W quoted)
    = Return (JList sub_events) ->
    exists t r,
      handle_created_object_record W cfg record cfg_ h
      = (EGetObject bucket (unquote_plus W quoted) :: t, r)
      /\ count is_fetch t = 0
      /\ (reliable W -> Forall well_shaped sub_events ->
          Forall (rules_contained W (rules cfg_) (ignore_rules cfg_))
            sub_events ->
          r = Return tt
          /\ notifications t
             = flat_map
                 (expected_notifications W cfg (unquote_plus W quoted)
                    (rules cfg_) (ignore_rules cfg_))
                 sub_events).
Proof.
  intros W cfg cfg_ record bucket quoted sub_events h
         Hbucket Hkey Hdigest Hrecords.
  pose proof (RetrieverFacts.get_cloudtrail_log_records_fetch
                W record bucket quoted h Hbucket Hkey Hdigest) as Hget.
  rewrite Hrecords in Hget.
  set (object_key := unquote_plus W quoted) in *.
  set (body := fun ev =>
         handle_event W cfg ev object_key (rules cfg_) (ignore_rules cfg_)).
  set (h1 := h ++ [EGetObject bucket object_key]).
  exists (fst (for_each sub_events body h1)),
         (snd (for_each sub_events body h1)).
  split; [|split].
  - unfold handle_created_object_record.
    rewrite (RunFacts.bind_return _ _ _ _ _ Hget).
    cbn [events key Py.iterate]. now rewrite RunFacts.bind_lift_return.
  - assert (H : at_most is_fetch (length sub_events * 0)
                  (for_each sub_events body)).
    { apply RunFacts.at_most_for_each. intros ev.
      apply FetchFacts.silent_handle_event. trivial. }
    specialize (H h1). lia.
  - intros Hworks Hshape Hc.
    destruct (HandlerFacts.for_each_event_returns W cfg Hworks object_key
                (rules cfg_) (ignore_rules cfg_) sub_events Hshape Hc h1)
      as (t & Ht & Hn).
    fold body in Ht. rewrite Ht. now split.
Qed.

Lemma created_record_is_fetched_once_witness :
  exists t r,
    handle_created_object_record quiet_world login_rules created_record
      login_rules []
    = (EGetObject (JStr "trail-bucket")
         "AWSLogs/123456789012/CloudTrail/log.json.gz" :: t, r)
    /\ count is_fetch t = 0.
Proof.
  destruct (created_record_is_fetched_once quiet_world login_rules
              login_rules created_record (JStr "trail-bucket")
              "AWSLogs/123456789012/CloudTrail/log.json.gz"
              [console_login; service_event] []
              eq_refl eq_refl eq_refl eq_refl) as (t & r & Hrun & Hf & _).
  exists t, r. split; [exact Hrun | exact Hf].
Defined.

(** X10.  [lambda_handler] fetches at most one object per record of the
    batch, however the records are processed and whatever fails. *)
Theorem at_most_one_fetch_per_record :
  forall (W : World) (cfg : Config) (batch : json) (records : list json)
         (h : history),
    Py.getitem batch "Records" = Return (JList records) ->
    count is_fetch (fst (lambda_handler W cfg batch h)) <= length records.
Proof.
  intros W cfg batch records h Hrecords.
  assert (Hbody : at_most is_fetch (length records * 1)
                    (process_records W cfg batch)).
  { intros h'.
    rewrite (RetrieverFacts.process_records_list W cfg batch records h'
               Hrecords).
    apply RunFacts.at_most_for_each. intros record.
    apply FetchFacts.one_fetch_dispatch_record. trivial. }
  assert (H : at_most is_fetch (length records * 1 + 0 + 0)
                (lambda_handler W cfg batch)).
  { unfold lambda_handler.
    apply RunFacts.at_most_bind; [|intros _; apply RunFacts.at_most_ret].
    apply RunFacts.at_most_try; [exact Hbody|].
    intros e. unfold report_failure.
    apply (RunFacts.at_most_bind is_fetch 0 0).
    - apply FetchFacts.silent_post. trivial.
    - intros _. apply FetchFacts.silent_emit; trivial. }
  specialize (H h). lia.
Qed.

Lemma at_most_one_fetch_per_record_witness :
  count is_fetch
    (fst (lambda_handler quiet_world login_rules
            (batch_of [removed_record; created_record; digest_record]) []))
  <= 3.
Proof.
  apply (at_most_one_fetch_per_record quiet_world login_rules
           (batch_of [removed_record; created_record; digest_record])
           [removed_record; created_record; digest_record] []).
  reflexivity.
Defined.



Module ContainmentFacts.
Import RunFacts RuleFacts.

(** The handler's own operations raise [Exception]s only. *)
Lemma getitem_catchable x k b : Py.getitem x k <> RaiseBase b.
Proof.
  destruct x as [| | | | l | d]; simpl; try discriminate.
  destruct (Dict.get k d); discriminate.
Qed.

Lemma getpath_catchable ks : forall x b, Py.getpath x ks <> RaiseBase b.
Proof.
  induction ks as [|k ks IH]; intros x b; simpl; [discriminate|].
  destruct (Py.getitem x k) as [y|e|b'] eqn:E; simpl.
  - apply IH.
  - discriminate.
  - now destruct (getitem_catchable x k b').
Qed.

Lemma contains_catchable needle x b : Py.contains needle x <> RaiseBase b.
Proof. destruct x; discriminate. Qed.

Lemma iterate_catchable x b : Py.iterate x <> RaiseBase b.
Proof. destruct x; discriminate. Qed.

Lemma startswith_catchable x prefix b : Py.startswith x prefix <> RaiseBase b.
Proof. destruct x; discriminate. Qed.

Lemma account_id_of_catchable x b : account_id_of x <> RaiseBase b.
Proof.
  unfold account_id_of.
  destruct (Py.getitem x "userIdentity") as [user|e|b'] eqn:E; simpl;
    [|discriminate|now destruct (getitem_catchable x "userIdentity" b')].
  destruct (Py.contains "accountId" user) as [[|]|e|b'] eqn:E'; simpl;
    [|discriminate|discriminate
     |now destruct (contains_catchable "accountId" user b')].
  apply getitem_catchable.
Qed.

Lemma access_denied_catchable x b : access_denied x <> RaiseBase b.
Proof.
  unfold access_denied.
  destruct (Py.contains "errorCode" x) as [[|]|e|b'] eqn:E; simpl;
    [|discriminate|discriminate
     |now destruct (contains_catchable "errorCode" x b')].
  destruct (Py.getitem x "errorCode") as [code|e|b'] eqn:E'; simpl;
    [|discriminate|now destruct (getitem_catchable x "errorCode" b')].
  apply contains_catchable.
Qed.

Lemma catchable_ret {A} (a : A) : catchable (ret a).
Proof. intros h b. discriminate. Qed.

Lemma catchable_raise {A} e : catchable (@raise A e).
Proof. intros h b. discriminate. Qed.

Lemma catchable_emit e : catchable (emit e).
Proof. intros h b. discriminate. Qed.

Lemma catchable_lift {A} (r : result A) :
  (forall b, r <> RaiseBase b) -> catchable (lift r).
Proof. intros H h b. apply H. Qed.

Lemma catchable_bind {A B} (m : M A) (k : A -> M B) :
  catchable m -> (forall a, catchable (k a)) -> catchable (bind m k).
Proof.
  intros Hm Hk h b. unfold bind. specialize (Hm h).
  destruct (m h) as [t1 [a|e|b1]]; cbn [snd] in *.
  - specialize (Hk a (h ++ t1) b).
    now destruct (k a (h ++ t1)) as [t2 r].
  - discriminate.
  - now destruct (Hm b1).
Qed.

Lemma catchable_try {A} (m : M A) (handler : exn -> M A) :
  catchable m -> (forall e, catchable (handler e)) ->
  catchable (try_except m handler).
Proof.
  intros Hm Hk h b. unfold try_except. specialize (Hm h).
  destruct (m h) as [t1 [a|e|b1]]; cbn [snd] in *.
  - discriminate.
  - specialize (Hk e (h ++ t1) b).
    now destruct (handler e (h ++ t1)) as [t2 r].
  - now destruct (Hm b1).
Qed.

Lemma catchable_for_each {A} (l : list A) (body : A -> M unit) :
  (forall a, catchable (body a)) -> catchable (for_each l body).
Proof.
  intros Hb. induction l as [|a l IH]; simpl.
  - apply catchable_ret.
  - apply catchable_bind; [apply Hb | intros _; exact IH].
Qed.

Lemma catchable_when c (m : M unit) : catchable m -> catchable (when c m).
Proof. intros H. destruct c; [exact H | apply catchable_ret]. Qed.

Section Contained.
Variable W : World.
Variable cfg : Config.

Lemma catchable_post m account_id : catchable (post_message W m account_id).
Proof.
  intros h b. unfold post_message. cbn [snd].
  destruct (post_message_raises W h m account_id); discriminate.
Qed.

Lemma catchable_for_rule_in answer flat rule_list :
  contained W flat rule_list ->
  forall collected,
    catchable (for_rule_in W answer flat rule_list collected).
Proof.
  induction 1 as [|rule rest Hrule _ IH]; intros collected h b.
  - discriminate.
  - cbn [for_rule_in]. rewrite bind_eval. cbn [snd].
    destruct (py_eval W rule flat) as [v|e|b'];
      [| |now destruct (Hrule b')].
    + destruct (Py.is_True v); [|apply IH].
      unfold log. rewrite bind_emit. discriminate.
    + unfold log. rewrite bind_emit. cbn [snd]. apply IH.
Qed.

(** Lines 131-162. *)
Lemma catchable_should_message_be_processed event rules ignore_rules :
  contained W (flatten_json event) (ignore_rules ++ rules) ->
  catchable (should_message_be_processed W event rules ignore_rules).
Proof.
  intros Hc. apply contained_app in Hc as [Hi Hr].
  unfold should_message_be_processed.
  apply catchable_bind;
    [apply catchable_lift; intros b; apply getitem_catchable | intros _].
  apply catchable_bind;
    [apply catchable_lift; intros b; apply getitem_catchable | intros _].
  apply catchable_bind; [apply catchable_emit | intros _].
  apply catchable_bind; [apply catchable_emit | intros _].
  apply catchable_bind; [now apply catchable_for_rule_in|].
  intros [r|collected]; [apply catchable_ret|].
  apply catchable_bind; [now apply catchable_for_rule_in|].
  intros [r|collected']; [apply catchable_ret|].
  apply catchable_bind; [apply catchable_emit | intros _].
  apply catchable_ret.
Qed.

(** Lines 165-193. *)
Lemma catchable_handle_event event object_key rules ignore_rules :
  contained W (flatten_json event) (ignore_rules ++ rules) ->
  catchable (handle_event W cfg event object_key rules ignore_rules).
Proof.
  intros Hc. unfold handle_event.
  apply catchable_bind;
    [now apply catchable_should_message_be_processed | intros result].
  apply catchable_bind;
    [apply catchable_lift; intros b; apply account_id_of_catchable
    | intros account_id].
  apply catchable_bind.
  { apply catchable_when, catchable_for_each. intros failed.
    apply catchable_post. }
  intros _. destruct (negb (should_be_processed result));
    [apply catchable_ret|].
  apply catchable_bind;
    [apply catchable_lift; intros b; apply access_denied_catchable
    | intros denied].
  apply catchable_bind;
    [apply catchable_when, catchable_emit | intros _].
  apply catchable_post.
Qed.

(** Lines 70-80. *)
Lemma catchable_handle_removed_object_record record :
  catchable (handle_removed_object_record W record).
Proof.
  unfold handle_removed_object_record.
  apply catchable_bind; [apply catchable_emit | intros _].
  apply catchable_bind;
    [apply catchable_lift; intros b; apply account_id_of_catchable
    | intros account_id].
  apply catchable_bind;
    [apply catchable_lift; intros b; apply getpath_catchable
    | intros source_file].
  apply catchable_post.
Qed.

(** Lines 98-123. *)
Lemma catchable_get_cloudtrail_log_records record :
  fetch_contained W ->
  catchable (get_cloudtrail_log_records W record).
Proof.
  intros Hfetch. unfold get_cloudtrail_log_records.
  apply catchable_bind;
    [apply catchable_lift; intros b; apply contains_catchable
    | intros has_s3].
  destruct (negb has_s3); [apply catchable_raise|].
  apply catchable_bind;
    [apply catchable_lift; intros b; apply getpath_catchable
    | intros bucket].
  apply catchable_bind;
    [apply catchable_lift; intros b; apply getpath_catchable
    | intros quoted].
  apply catchable_bind;
    [apply catchable_lift; intros b; destruct quoted; discriminate
    | intros key].
  destruct (PyStr.contains "Digest" key); [apply catchable_ret|].
  apply catchable_try.
  - apply catchable_bind; [intros h b; apply Hfetch | intros content].
    apply catchable_bind;
      [apply catchable_lift; intros b; apply getitem_catchable
      | intros records].
    apply catchable_ret.
  - intros e. apply catchable_bind; [apply catchable_emit | intros _].
    apply catchable_raise.
Qed.

(** Lines 43-59. *)
Lemma catchable_process_records batch :
  fetch_contained W ->
  (forall flat, contained W flat (ignore_rules cfg ++ rules cfg)) ->
  catchable (process_records W cfg batch).
Proof.
  intros Hfetch Hrules. unfold process_records.
  apply catchable_bind;
    [apply catchable_lift; intros b; apply getitem_catchable
    | intros records].
  apply catchable_bind;
    [apply catchable_lift; intros b; apply iterate_catchable
    | intros record_list].
  apply catchable_for_each. intros record. unfold dispatch_record.
  apply catchable_bind;
    [apply catchable_lift; intros b; apply getitem_catchable
    | intros event_name].
  apply catchable_bind;
    [apply catchable_lift; intros b; apply getpath_catchable
    | intros quoted].
  apply catchable_bind;
    [apply catchable_lift; intros b; apply contains_catchable
    | intros digest].
  apply catchable_bind;
    [apply catchable_when, catchable_emit | intros _].
  apply catchable_bind;
    [apply catchable_lift; intros b; apply startswith_catchable
    | intros removed].
  destruct removed; [apply catchable_handle_removed_object_record|].
  apply catchable_bind;
    [apply catchable_lift; intros b; apply startswith_catchable
    | intros created].
  destruct created; [|apply catchable_ret].
  unfold handle_created_object_record.
  apply catchable_bind;
    [now apply catchable_get_cloudtrail_log_records | intros [batch'|]];
    [|apply catchable_ret].
  apply catchable_bind;
    [apply catchable_lift; intros b; apply iterate_catchable
    | intros sub_events].
  apply catchable_for_each. intros ev.
  apply catchable_handle_event, Hrules.
Qed.

End Contained.
End ContainmentFacts.

(** X12.  [lambda_handler] posts the top-level error notification at most
    once, whatever happens.  With a notifier that never raises, and with
    configured rules and an object store that raise nothing but
    [Exception]s, it returns 200 for every batch - one that is no mapping,
    records of any shape, failing fetches, rules that fail with an
    [Exception].  (A rule that exits is outside this: see
    [lambda_handler_can_exit].) *)
Theorem lambda_handler_returns_200_when_notifier_works :
  forall (W : World) (cfg : Config) (batch : json) (h : history),
    count is_slack_error_post (fst (lambda_handler W cfg batch h)) <= 1
    /\ (reliable W ->
        fetch_contained W ->
        (forall flat, contained W flat (ignore_rules cfg ++ rules cfg)) ->
        snd (lambda_handler W cfg batch h) = Return 200%Z).
Proof.
  intros W cfg batch h.
  assert (Hquiet : at_most is_slack_error_post 0 (process_records W cfg batch)).
  { apply BoundFacts.quiet_process_records.
    - now intros [].
    - reflexivity.
    - reflexivity. }
  specialize (Hquiet h).
  pose proof (ContainmentFacts.catchable_process_records W cfg batch) as Hc.
  unfold catchable in Hc. specialize (fun Hf Hr => Hc Hf Hr h).
  unfold lambda_handler, bind, try_except.
  destruct (process_records W cfg batch h) as [t [[]|e|b]];
    cbn [fst snd] in *.
  - unfold ret. cbn [fst snd]. rewrite app_nil_r. split; [lia | reflexivity].
  - unfold report_failure, bind, post_message, log, emit, ret. split.
    + destruct (post_message_raises W (h ++ t)
                  (message_for_slack_error_notification e batch) JNull);
        cbn [fst snd]; unfold count in *;
        rewrite ?filter_app, ?length_app; simpl; lia.
    + intros Hworks _ _. now rewrite Hworks.
  - split; [lia|]. intros _ Hfetch Hrules.
    now destruct (Hc Hfetch Hrules b).
Qed.

Lemma lambda_handler_returns_200_witness :
  snd (lambda_handler store_down reporting_rules
         (batch_of [created_record]) [])
  = Return 200%Z.
Proof.
  destruct (lambda_handler_returns_200_when_notifier_works store_down
              reporting_rules (batch_of [created_record]) [])
    as [_ Hreturns].
  apply Hreturns.
  - intros h m a. reflexivity.
  - intros h bucket key b. discriminate.
  - intros flat.
    repeat (apply Forall_cons;
            [intros b; cbn;
             try destruct (Dict.get _ flat); discriminate|]).
    apply Forall_nil.
Defined.

(** X13.  A batch mapping without "Records" dispatches nothing: line 43
    raises [KeyError], and the only notification call of the invocation is
    the top-level error notification carrying that exception and the
    batch. *)
Theorem batch_without_records_is_reported :
  forall (W : World) (cfg : Config) (members : dict json) (h : history),
    Dict.get "Records" members = None ->
    process_records W cfg (JDict members) h = ([], Raise (KeyError "Records"))
    /\ notifications (fst (lambda_handler W cfg (JDict members) h))
       = [(message_for_slack_error_notification (KeyError "Records")
             (JDict members), JNull)].
Proof.
  intros W cfg members h Hmissing.
  assert (Hbody : process_records W cfg (JDict members) h
                  = ([], Raise (KeyError "Records"))).
  { unfold process_records. cbn [Py.getitem]. now rewrite Hmissing. }
  split; [exact Hbody|].
  unfold lambda_handler, bind, try_except. rewrite Hbody.
  unfold report_failure, bind, post_message, log, emit, ret.
  destruct (post_message_raises W (h ++ [])
              (message_for_slack_error_notification (KeyError "Records")
                 (JDict members)) JNull); reflexivity.
Qed.

Lemma batch_without_records_is_reported_witness :
  lambda_handler quiet_world login_rules
    (JDict [("Event", JStr "s3:TestEvent")]) []
  = ([EPost (message_for_slack_error_notification (KeyError "Records")
               (JDict [("Event", JStr "s3:TestEvent")])) JNull;
      ELog ERROR "Failed to process event"], Return 200%Z)
  /\ notifications
       (fst (lambda_handler quiet_world login_rules
               (JDict [("Event", JStr "s3:TestEvent")]) []))
     = [(message_for_slack_error_notification (KeyError "Records")
           (JDict [("Event", JStr "s3:TestEvent")]), JNull)].
Proof.
  split; [reflexivity|].
  apply (batch_without_records_is_reported quiet_world login_rules
           [("Event", JStr "s3:TestEvent")] []).
  reflexivity.
Defined.

(* ================================================================== *)
(** * Further properties of sub-event and removal handling *)

(** X14.  A sub-event that a match-rule accepts (after rules that return
    a value or raise an [Exception]) is not notified when the test of line
    189 raises (an "errorCode" that is [null], a number or a
    boolean supports no membership test): [handle_event] raises after the
    evaluation-error reports, if any, and before the notification of the
    sub-event; with the toggle disabled it raises that very exception and
    has posted nothing. *)
Theorem unreadable_error_code_blocks_notification :
  forall (W : World) (cfg : Config) (event : json) (object_key : string)
         (match_rules ignore_list : list string)
         (user name account_id : json) (e0 : exn) (h : history),
    Py.getitem event "userIdentity" = Return user ->
    Py.getitem event "eventName" = Return name ->
    account_id_of event = Return account_id ->
    access_denied event = Raise e0 ->
    rules_contained W match_rules ignore_list event ->
    should_be_processed
      (verdict W (flatten_json event) match_rules ignore_list) = true ->
    exists t e,
      handle_event W cfg event object_key match_rules ignore_list h
      = (t, Raise e)
      /\ count is_event_post t = 0
      /\ (rule_evaluation_errors_to_slack cfg = false ->
          e = e0 /\ notifications t = []).
Proof.
  intros W cfg event object_key match_rules ignore_list user name account_id
         e0 h Hu Hn Ha Hd Hc Hspb.
  destruct (EvaluatorFacts.should_message_be_processed_run
              W event match_rules ignore_list user name h Hu Hn Hc)
    as (t0 & Ht0 & _ & Hn0 & _).
  assert (Hposts : forall e, is_post e = false -> is_event_post e = false)
    by now intros [].
  assert (Hq0 : count is_event_post t0 = 0).
  { pose proof (BoundFacts.quiet_should_message_be_processed W is_event_post
                  Hposts event match_rules ignore_list h) as H.
    rewrite Ht0 in H. simpl in H. lia. }
  unfold handle_event.
  rewrite (RunFacts.bind_return _ _ _ _ _ Ht0), Ha, RunFacts.bind_lift_return.
  set (result := verdict W (flatten_json event) match_rules ignore_list) in *.
  destruct (rule_evaluation_errors_to_slack cfg) eqn:Htoggle; cbn [when].
  - set (reports := for_each (errors result) _).
    assert (Hr : at_most is_event_post 0 reports).
    { apply BoundFacts.at_most_for_each_none. intros failed h'.
      apply Nat.le_refl. }
    specialize (Hr (h ++ t0)). unfold bind.
    assert (Hcatch : catchable reports).
    { apply ContainmentFacts.catchable_for_each. intros failed.
      apply ContainmentFacts.catchable_post. }
    specialize (Hcatch (h ++ t0)).
    destruct (reports (h ++ t0)) as [t1 [[]|e1|b1]]; cbn [fst snd] in *;
      [| |now destruct (Hcatch b1)].
    + rewrite Hspb. cbn [negb]. rewrite Hd. cbn [lift fst snd].
      eexists. eexists. split; [reflexivity|]. split; [|discriminate].
      rewrite !RunFacts.count_app. unfold count at 3. simpl. lia.
    + eexists. eexists. split; [reflexivity|]. split; [|discriminate].
      rewrite RunFacts.count_app. lia.
  - rewrite RunFacts.bind_ret, Hspb. cbn [negb]. rewrite Hd.
    rewrite RunFacts.bind_lift_raise. cbn [fst snd].
    eexists. eexists. split; [reflexivity|].
    rewrite app_nil_r. split; [exact Hq0|]. intros _. now split.
Qed.

Lemma unreadable_error_code_witness :
  exists t,
    handle_event quiet_world login_rules null_error_code "log.json.gz"
      ["True"] [] []
    = (t, Raise TypeError)
    /\ notifications t = [].
Proof.
  assert (Hc : rules_contained quiet_world ["True"] [] null_error_code).
  { apply Forall_cons; [intros b; vm_compute; discriminate|].
    apply Forall_nil. }
  destruct (unreadable_error_code_blocks_notification quiet_world login_rules
              null_error_code "log.json.gz" ["True"] []
              (JDict [("type", JStr "Root")]) (JStr "ConsoleLogin") (JStr "")
              TypeError [] eq_refl eq_refl eq_refl eq_refl Hc eq_refl)
    as (t & e & Hrun & _ & Hoff).
  destruct (Hoff eq_refl) as [-> Hn].
  exists t. split; [exact Hrun | exact Hn].
Defined.

(** X15.  A removal record without "userIdentity" is not notified as a
    removal: [handle_removed_object_record] logs the record and raises
    [KeyError] at line 74, before any notification call. *)
Theorem removal_without_identity_is_not_notified :
  forall (W : World) (members : dict json) (h : history),
    Dict.get "userIdentity" members = None ->
    handle_removed_object_record W (JDict members) h
    = ([ELog INFO "s3:ObjectRemoved event"],
       Raise (KeyError "userIdentity")).
Proof.
  intros W members h Hmissing.
  unfold handle_removed_object_record, log.
  rewrite RunFacts.bind_emit. unfold account_id_of. cbn [Py.getitem].
  now rewrite Hmissing.
Qed.

Lemma removal_without_identity_witness :
  lambda_handler quiet_world login_rules (batch_of [anonymous_removal]) []
  = ([ELog DEBUG "s3_notification_event";
      ELog INFO "s3:ObjectRemoved event";
      EPost (message_for_slack_error_notification (KeyError "userIdentity")
               (batch_of [anonymous_removal])) JNull;
      ELog ERROR "Failed to process event"], Return 200%Z)
  /\ handle_removed_object_record quiet_world anonymous_removal []
     = ([ELog INFO "s3:ObjectRemoved event"],
        Raise (KeyError "userIdentity")).
Proof.
  split; [reflexivity|].
  apply (removal_without_identity_is_not_notified quiet_world). reflexivity.
Defined.

Module RoutingFacts.
Import RunFacts.

Lemma existsb_permutation {A} (f : A -> bool) (l l' : list A) :
  Permutation l l' -> existsb f l = existsb f l'.
Proof.
  induction 1 as [| x l l' _ IH | x y l | l l' l'' _ IH1 _ IH2]; simpl.
  - reflexivity.
  - now rewrite IH.
  - now rewrite !orb_assoc, (orb_comm (f y) (f x)).
  - now rewrite IH1.
Qed.

(** Lines 175-183: every report goes out with the account id of the
    sub-event. *)
Lemma reports_carry_account W object_key account_id failures :
  forall h,
    Forall (fun n => snd n = account_id)
      (notifications
         (fst (for_each failures (fun failed =>
                 post_message W
                   (message_for_rule_evaluation_error_notification
                      (error failed) object_key (rule failed))
                   account_id) h))).
Proof.
  induction failures as [|failed rest IH]; intros h; [constructor|].
  cbn [for_each]. unfold bind at 1, post_message at 1.
  destruct (post_message_raises W h _ account_id).
  - cbn. constructor; [reflexivity | constructor].
  - specialize (IH (h ++ [EPost (message_for_rule_evaluation_error_notification
                                   (error failed) object_key (rule failed))
                            account_id])).
    destruct (for_each rest _ _) as [t2 r2]. cbn [fst snd] in *.
    rewrite notifications_app. apply Forall_app. split; [|exact IH].
    cbn. constructor; [reflexivity | constructor].
Qed.

(** Rule evaluation posts nothing, however it ends. *)
Lemma should_message_be_processed_posts_nothing W event rules ignore_rules h :
  notifications (fst (should_message_be_processed W event rules ignore_rules h))
  = [].
Proof.
  pose proof (BoundFacts.quiet_should_message_be_processed W is_post
                (fun e H => H) event rules ignore_rules h) as H.
  unfold count in H.
  induction (fst (should_message_be_processed W event rules ignore_rules h))
    as [|e t IH]; [reflexivity|].
  destruct e; simpl in *; try (apply IH; exact H). lia.
Qed.

End RoutingFacts.

(** X16.  The decision does not depend on the order of the rules within
    each list (for rule expressions whose outcome is a function of their
    text and of the flattened event, and is a value or an [Exception]):
    reordering the ignore-rules and
    reordering the match-rules gives the same "process" / "do not process"
    answer.  Only the rules evaluated and the errors collected depend on
    the order. *)
Theorem decision_ignores_rule_order :
  forall (W : World) (event : json)
         (match_rules match_rules' ignore_list ignore_list' : list string)
         (user name : json) (h : history),
    Py.getitem event "userIdentity" = Return user ->
    Py.getitem event "eventName" = Return name ->
    contained W (flatten_json event) (ignore_list ++ match_rules) ->
    Permutation match_rules match_rules' ->
    Permutation ignore_list ignore_list' ->
    exists t t' result result',
      should_message_be_processed W event match_rules ignore_list h
      = (t, Return result)
      /\ should_message_be_processed W event match_rules' ignore_list' h
         = (t', Return result')
      /\ should_be_processed result = should_be_processed result'.
Proof.
  intros W event match_rules match_rules' ignore_list ignore_list' user name h
         Hu Hn Hc Hm Hi.
  assert (Hc' : contained W (flatten_json event)
                  (ignore_list' ++ match_rules')).
  { unfold contained in *.
    eapply Permutation_Forall; [|exact Hc]. now apply Permutation_app. }
  destruct (EvaluatorFacts.should_message_be_processed_run
              W event match_rules ignore_list user name h Hu Hn
              (RuleFacts.contained_through W _ _ Hc))
    as (t & Ht & _).
  destruct (EvaluatorFacts.should_message_be_processed_run
              W event match_rules' ignore_list' user name h Hu Hn
              (RuleFacts.contained_through W _ _ Hc'))
    as (t' & Ht' & _).
  eexists. eexists. eexists. eexists.
  split; [exact Ht|]. split; [exact Ht'|].
  unfold verdict. cbn [should_be_processed].
  now rewrite (RoutingFacts.existsb_permutation _ _ _ Hm),
    (RoutingFacts.existsb_permutation _ _ _ Hi).
Qed.

Lemma decision_ignores_rule_order_witness :
  exists t t' result result',
    should_message_be_processed quiet_world service_event
      ["event["; "True"] ["False"; "1"] []
    = (t, Return result)
    /\ should_message_be_processed quiet_world service_event
         ["True"; "event["] ["1"; "False"] []
       = (t', Return result')
    /\ should_be_processed result = should_be_processed result'.
Proof.
  apply (decision_ignores_rule_order quiet_world service_event
           ["event["; "True"] ["True"; "event["] ["False"; "1"] ["1"; "False"]
           (JDict [("type", JStr "AWSService")]) (JStr "AssumeRole") []).
  - reflexivity.
  - reflexivity.
  - repeat (apply Forall_cons; [intros b; vm_compute; discriminate|]).
    apply Forall_nil.
  - apply perm_swap.
  - apply perm_swap.
Defined.

(** X17.  Every notification call that [handle_event] makes about a
    sub-event - evaluation-error reports and the notification of the
    sub-event alike - is made with the account id read from the
    sub-event's "userIdentity", whatever the notifier does. *)
Theorem notifications_carry_the_sub_events_account :
  forall (W : World) (cfg : Config) (event : json) (object_key : string)
         (match_rules ignore_list : list string)
         (user name account_id : json) (h : history),
    Py.getitem event "userIdentity" = Return user ->
    Py.getitem event "eventName" = Return name ->
    account_id_of event = Return account_id ->
    Forall (fun n => snd n = account_id)
      (notifications
         (fst (handle_event W cfg event object_key match_rules ignore_list h))).
Proof.
  intros W cfg event object_key match_rules ignore_list user name account_id
         h Hu Hn Ha.
  pose proof (RoutingFacts.should_message_be_processed_posts_nothing
                W event match_rules ignore_list h) as Hn0.
  unfold handle_event.
  destruct (should_message_be_processed W event match_rules ignore_list h)
    as [t0 [result|e|b]] eqn:Ht0; cbn [fst] in Hn0.
  2:{ rewrite (RunFacts.bind_raise _ _ _ _ _ Ht0). cbn [fst].
      rewrite Hn0. constructor. }
  2:{ rewrite (RunFacts.bind_raise_base _ _ _ _ _ Ht0). cbn [fst].
      rewrite Hn0. constructor. }
  rewrite (RunFacts.bind_return _ _ _ _ _ Ht0), Ha, RunFacts.bind_lift_return.
  cbn [fst]. rewrite RunFacts.notifications_app, Hn0. cbn [app].
  set (final := if negb (should_be_processed result) then _ else _).
  assert (Hlast : forall h',
             Forall (fun n => snd n = account_id)
               (notifications (fst (final h')))).
  { intros h'. unfold final.
    destruct (negb (should_be_processed result)); [constructor|].
    destruct (access_denied event) as [[|]|e|b]; cbn; repeat constructor. }
  clearbody final.
  destruct (rule_evaluation_errors_to_slack cfg); cbn [when].
  - pose proof (RoutingFacts.reports_carry_account W object_key account_id
                  (errors result) (h ++ t0)) as Hreports.
    unfold bind at 1.
    destruct (for_each (errors result) _ (h ++ t0)) as [t1 [[]|e1|b1]];
      cbn [fst snd] in *; [|exact Hreports|exact Hreports].
    specialize (Hlast ((h ++ t0) ++ t1)).
    destruct (final ((h ++ t0) ++ t1)) as [t2 r2].
    cbn [fst] in *. rewrite RunFacts.notifications_app.
    apply Forall_app. now split.
  - rewrite RunFacts.bind_ret. apply Hlast.
Qed.

Lemma notifications_carry_account_witness :
  Forall (fun n => snd n = JStr "123456789012")
    (notifications
       (fst (handle_event reports_rejected accept_after_error console_login
               "log.json.gz" (rules accept_after_error) [] []))).
Proof.
  apply (notifications_carry_the_sub_events_account reports_rejected
           accept_after_error console_login "log.json.gz"
           (rules accept_after_error) []
           (JDict [("type", JStr "Root"); ("accountId", JStr "123456789012")])
           (JStr "ConsoleLogin") (JStr "123456789012") []); reflexivity.
Defined.

(* ================================================================== *)
(** * Paths in the event and keys in the flattened event *)

Module PathFacts.
Import PyStr PyStrFacts FlattenFacts.

Lemma in_leaves_items_inv l :
  forall start p v,
    In (p, v) (leaves_items l start) ->
    exists i x q,
      p = Index (start + i) :: q /\ nth_error l i = Some x
      /\ In (q, v) (leaves x).
Proof.
  induction l as [|a l IH]; intros start p v Hin; simpl in Hin; [tauto|].
  apply in_app_iff in Hin as [Hin|Hin].
  - apply in_map_iff in Hin as ([q w] & Heq & Hq).
    injection Heq as <- <-. exists 0, a, q.
    rewrite Nat.add_0_r. now repeat split.
  - destruct (IH _ _ _ Hin) as (i & x & q & -> & Hnth & Hq).
    exists (S i), x, q. rewrite Nat.add_succ_r. now repeat split.
Qed.

Lemma in_leaves_members_inv d :
  forall p v,
    In (p, v) (leaves_members d) ->
    exists a x q, p = Key a :: q /\ In (a, x) d /\ In (q, v) (leaves x).
Proof.
  induction d as [|[a xa] d IH]; intros p v Hin; simpl in Hin; [tauto|].
  apply in_app_iff in Hin as [Hin|Hin].
  - apply in_map_iff in Hin as ([q w] & Heq & Hq).
    injection Heq as <- <-. exists a, xa, q.
    repeat split; [now left | exact Hq].
  - destruct (IH _ _ Hin) as (a' & x & q & -> & Hd & Hq).
    exists a', x, q. repeat split; [now right | exact Hq].
Qed.

(** A leaf of the traversal is the value found by following its path. *)
Lemma leaf_value_at y :
  well_formed y ->
  forall p v, In (p, v) (leaves y) -> value_at y p = Some v.
Proof.
  induction y as [| b | n | s | l IH | d IH] using json_nested_ind;
    intros Hwf p v Hin;
    try (simpl in Hin; destruct Hin as [Heq|[]]; injection Heq as <- <-;
         reflexivity).
  - rewrite leaves_list in Hin.
    destruct (in_leaves_items_inv l 0 p v Hin) as (i & x & q & -> & Hnth & Hq).
    apply CollisionFacts.well_formed_list in Hwf.
    rewrite Forall_forall in IH, Hwf.
    pose proof (nth_error_In _ _ Hnth) as Hx.
    simpl. rewrite Hnth. exact (IH x Hx (Hwf x Hx) q v Hq).
  - rewrite leaves_dict in Hin.
    destruct (in_leaves_members_inv d p v Hin) as (a & x & q & -> & Hd & Hq).
    apply CollisionFacts.well_formed_dict in Hwf as [Hnd Hwf].
    rewrite Forall_forall in IH, Hwf.
    simpl. rewrite (DictFacts.get_unique _ a x d Hnd Hd).
    exact (IH (a, x) Hd (Hwf (a, x) Hd) q v Hq).
Qed.

Lemma flatten_json_as_entries y :
  well_formed y -> keys_dot_free y ->
  flatten_json y = map entry (leaves y)
  /\ NoDup (map fst (map entry (leaves y))).
Proof.
  intros Hwf Hdf.
  pose proof (CollisionFacts.leaf_keys_nodup y Hwf Hdf) as Hnd.
  assert (Hnd' : NoDup (map fst (map entry (leaves y))))
    by (rewrite map_map; exact Hnd).
  split; [|exact Hnd'].
  rewrite flatten_json_leaves, CollisionFacts.writes_as_entries.
  now rewrite DictFacts.writes_fresh by (exact Hnd' || intros k _ []).
Qed.

End PathFacts.

(** X18.  Lookup round trip: when no mapping key of the event contains
    ".", the flattened mapping holds at a dotted key exactly the scalar
    found in the event by following the path that the key spells - a
    scalar reached by a path is found at the path's key, and every entry
    of the flattened mapping is reached by a path with that key. *)
Theorem flattened_lookup_follows_path :
  forall y : json,
    well_formed y -> keys_dot_free y ->
    (forall p v,
        value_at y p = Some v -> is_scalar v = true ->
        Dict.get (path_key p) (flatten_json y) = Some v)
    /\ (forall k v,
          Dict.get k (flatten_json y) = Some v ->
          exists p,
            path_key p = k /\ value_at y p = Some v /\ is_scalar v = true).
Proof.
  intros y Hwf Hdf.
  destruct (PathFacts.flatten_json_as_entries y Hwf Hdf) as [Hmap Hnd].
  split.
  - intros p v Hv Hs. rewrite Hmap.
    apply DictFacts.get_unique; [exact Hnd|].
    apply in_map_iff. exists (p, v). split; [reflexivity|].
    exact (CollisionFacts.value_at_leaf p y v Hv Hs).
  - intros k v Hget.
    assert (Hin : In (k, v) (flatten_json y)).
    { clear -Hget. induction (flatten_json y) as [|[k0 v0] d IH];
        simpl in Hget; [discriminate|].
      destruct (String.eqb k k0) eqn:E.
      - apply String.eqb_eq in E. injection Hget as ->. subst. now left.
      - right. now apply IH. }
    destruct (FlattenMore.flatten_json_entries y k v Hin) as (p & Hp & Hk).
    exists p. split; [exact Hk|]. split.
    + exact (PathFacts.leaf_value_at y Hwf p v Hp).
    + exact (FlattenFacts.leaves_scalar y p v Hp).
Qed.

Lemma flattened_lookup_follows_path_witness :
  Dict.get "userIdentity.accountId" (flatten_json console_login)
  = Some (JStr "123456789012").
Proof.
  assert (Hwf : well_formed console_login).
  { simpl. repeat split; repeat constructor; simpl; intuition discriminate. }
  assert (Hdf : keys_dot_free console_login).
  { simpl. repeat split; reflexivity. }
  destruct (flattened_lookup_follows_path console_login Hwf Hdf) as [H _].
  apply (H [Key "userIdentity"; Key "accountId"] (JStr "123456789012"));
    reflexivity.
Defined.

(** X19.  Rules and routing agree on the account: when no mapping key of
    the sub-event contains "." and its "userIdentity" is a mapping with a
    scalar "accountId", the flattened event that rules see holds that
    value at "userIdentity.accountId", and it is the account id that
    [handle_event] and [handle_removed_object_record] pass to the
    notifier. *)
Theorem rules_see_the_routing_account :
  forall (event : json) (members user : dict json) (account : json),
    event = JDict members ->
    well_formed event -> keys_dot_free event ->
    Dict.get "userIdentity" members = Some (JDict user) ->
    Dict.get "accountId" user = Some account ->
    is_scalar account = true ->
    Dict.get "userIdentity.accountId" (flatten_json event) = Some account
    /\ account_id_of event = Return account.
Proof.
  intros event members user account -> Hwf Hdf Hu Ha Hs. split.
  - destruct (PathFacts.flatten_json_as_entries _ Hwf Hdf) as [Hmap Hnd].
    rewrite Hmap. apply DictFacts.get_unique; [exact Hnd|].
    apply in_map_iff. exists ([Key "userIdentity"; Key "accountId"], account).
    split; [reflexivity|].
    apply CollisionFacts.value_at_leaf; [|exact Hs].
    simpl. now rewrite Hu, Ha.
  - unfold account_id_of. cbn [Py.getitem Py.and_then].
    rewrite Hu. cbn [Py.and_then Py.contains]. unfold Dict.mem.
    rewrite Ha. cbn [Py.getitem]. now rewrite Ha.
Qed.

Lemma rules_see_the_routing_account_witness :
  Dict.get "userIdentity.accountId" (flatten_json console_login)
  = Some (JStr "123456789012")
  /\ account_id_of console_login = Return (JStr "123456789012").
Proof.
  apply (rules_see_the_routing_account console_login
           [("eventName", JStr "ConsoleLogin");
            ("userIdentity",
             JDict [("type", JStr "Root");
                    ("accountId", JStr "123456789012")])]
           [("type", JStr "Root"); ("accountId", JStr "123456789012")]
           (JStr "123456789012")).
  - reflexivity.
  - simpl. repeat split; repeat constructor; simpl; intuition discriminate.
  - simpl. repeat split; reflexivity.
  - reflexivity.
  - reflexivity.
  - reflexivity.
Defined.

(* ================================================================== *)
(** * What the handlers do not catch *)

(** X20.  A rule that raises what is no instance of [Exception] (one that
    exits, say) ends the handling of the sub-event on the spot:
    [handle_event] leaves with that exception right after evaluating the
    rule, no rule after it is evaluated, and nothing is posted - neither
    the sub-event nor the errors collected from the rules before it. *)
Theorem uncaught_rule_raise_leaves_handle_event :
  forall (W : World) (cfg : Config) (event : json) (object_key : string)
         (match_rules ignore_list : list string) (user name : json)
         (pre : list string) (rule : string) (post : list string)
         (b : base_exception) (h : history),
    Py.getitem event "userIdentity" = Return user ->
    Py.getitem event "eventName" = Return name ->
    ignore_list ++ match_rules = pre ++ rule :: post ->
    contained W (flatten_json event) pre ->
    Forall (fun r => py_eval W r (flatten_json event) <> Return (JBool true))
      pre ->
    py_eval W rule (flatten_json event) = RaiseBase b ->
    exists t,
      handle_event W cfg event object_key match_rules ignore_list h
      = (t, RaiseBase b)
      /\ evaluated t = pre ++ [rule]
      /\ notifications t = [].
Proof.
  intros W cfg event object_key match_rules ignore_list user name
         pre rule post b h Hu Hn Hsplit Hc Hpre Hb.
  apply RuleFacts.no_match_forall in Hpre.
  destruct (EvaluatorFacts.should_message_be_processed_leaves
              W event match_rules ignore_list user name pre rule post b h
              Hu Hn Hsplit Hc Hpre Hb) as (t & Hrun & He & Hposts & _).
  exists t. split; [|now split].
  unfold handle_event. now rewrite (RunFacts.bind_raise_base _ _ _ _ _ Hrun).
Qed.

Lemma uncaught_rule_raise_witness :
  exists t,
    handle_event quiet_world exiting_rules console_login "log.json.gz"
      ["event["; "__import__('sys').exit(3)"; "True"] [] []
    = (t, RaiseBase (SystemExit 3))
    /\ evaluated t = ["event["; "__import__('sys').exit(3)"]
    /\ notifications t = [].
Proof.
  apply (uncaught_rule_raise_leaves_handle_event quiet_world exiting_rules
           console_login "log.json.gz"
           ["event["; "__import__('sys').exit(3)"; "True"] []
           (JDict [("type", JStr "Root"); ("accountId", JStr "123456789012")])
           (JStr "ConsoleLogin")
           ["event["] "__import__('sys').exit(3)" ["True"] (SystemExit 3) []).
  - reflexivity.
  - reflexivity.
  - reflexivity.
  - apply Forall_cons; [intros b; vm_compute; discriminate|].
    apply Forall_nil.
  - constructor; [|constructor]. simpl. discriminate.
  - reflexivity.
Defined.
